(** * labctl command lifecycle: hooks, instrumentation and action handlers

    A shallow embedding of [cmd/labctl/command/common.go] and of the
    debug action handlers of the same package, together with the
    properties of their specification.

    Go values are modelled as follows.
    - An [error] value is a term of the inductive type [error]; the nil
      error is [None : option error].
    - A function that may panic returns a [result]: [Ret] for a normal
      return, [Panic] for an unwinding panic.
    - Effects are threaded through a [World]: the capability map
      [App.Metadata], the two variables captured by the closures of
      [AttachAppContext] ([span] and [ctx]), and the log of observable
      events (transport construction, span operations, remote calls).
    - Collaborators that live outside the file (the tracing and logging
      libraries, the remote service facade) are fields of a [Host]. *)

From stdpp Require Import base option list gmap strings.
From Stdlib Require Import ZArith.

Local Open Scope string_scope.
Local Open Scope list_scope.

(** ** Errors and panics *)

#[warnings="-register-all"] Inductive error : Type :=
| ErrorsNew (msg : string)                  (* errors.New(msg) *)
| FmtErrorf (format : string) (arg : string) (* fmt.Errorf(format, arg) *)
| ErrInvalidArgument                        (* errdefs.ErrInvalidArgument *)
| Wrapf (cause : error) (format : string) (arg : string)
                                            (* errors.Wrapf(cause, format, arg) *)
| MultiError (errs : list error)            (* cli.NewMultiError(errs...) *)
| ForeignError (code : nat).                (* an error made by a collaborator *)

Inductive panic : Type :=
| PanicError (e : error)                    (* panic(err) *)
| PanicNilInterface (key : string)          (* x.(T) on a nil interface *)
| PanicTypeAssertion (key : string)         (* x.(T) on a value of another type *)
| PanicForeign (code : nat).

Inductive result (A : Type) : Type :=
| Ret (a : A)
| Panic (p : panic).
Arguments Ret {A} a.
Arguments Panic {A} p.

(** ** Tracing, logging and context values *)

Definition Transport := nat.
Definition Level := Z.

Inductive Sampler := ConstSampler (decision : bool).
Inductive Reporter := RemoteReporter (tr : Transport).

Inductive Tracer : Type :=
| NoopTracer
| JaegerTracer (service : string) (sampler : Sampler) (reporter : Reporter).

Inductive Closer : Type :=
| nopCloser
| JaegerCloser (t : Tracer).

Record Span := mkSpan { span_tracer : Tracer; span_operation : string }.

Inductive Writer : Type :=
| Stderr
| ConsoleWriter (Out : Writer).

Record Logger := mkLogger {
  logger_out : Writer;
  logger_level : Level;
  logger_timestamp : bool
}.

Inductive GoContext : Type :=
| CtxBase (id : nat)
| CtxWithLogger (l : Logger) (parent : GoContext)
| CtxWithLogWriter (wr : Writer) (parent : GoContext)
| CtxWithSpan (sp : Span) (parent : GoContext).

Inductive Printer := UnixPrinter | JSONPrinter.

Record Agent := mkAgent { agent_addr : string }.
Record LabApp := mkLabApp { labapp_addr : string }.
Record Task := mkTask { Type_ : string; Subject : string }.

(** The dynamically typed values of [App.Metadata]. *)
Inductive value : Type :=
| VContext (ctx : GoContext)
| VPrinter (p : Printer)
| VClient (client : nat)
| VOther (tag : nat).

(** ** Observable events *)

Inductive Event : Type :=
| EvNewUDPTransport (addr : string) (maxPacketSize : Z)
| EvStartSpan (t : Tracer) (name : string)
| EvLogFields (sp : Span) (key val : string)
| EvSpanFinish (sp : Span)
| EvClose (cl : Closer)
| EvResolveAgent (addr : string)
| EvResolveApp (addr : string)
| EvUpdate (a : Agent) (ctx : GoContext) (url : string)
| EvHealthcheck (a : LabApp) (ctx : GoContext)
| EvRun (a : LabApp) (ctx : GoContext) (t : Task)
| EvLogInfo (ctx : GoContext) (msg : string).

(** ** The world threaded through hooks and handlers *)

Record World := mkWorld {
  Metadata : gmap string value;   (* c.App.Metadata *)
  span : option Span;             (* [var span] of AttachAppContext *)
  ctx : GoContext;                (* [ctx] parameter of AttachAppContext *)
  events : list Event
}.

Definition Go (A : Type) : Type := World -> World * result A.

Definition ret {A} (a : A) : Go A := fun w => (w, Ret a).

Definition bind {A B} (m : Go A) (k : A -> Go B) : Go B :=
  fun w => match m w with
           | (w1, Ret a) => k a w1
           | (w1, Panic p) => (w1, Panic p)
           end.

Definition emit (e : Event) : Go unit :=
  fun w => (mkWorld (Metadata w) (span w) (ctx w) (events w ++ [e]), Ret tt).

Definition raise {A} (p : panic) : Go A := fun w => (w, Panic p).

Notation "'let*' x ':=' m 'in' k" := (bind m (fun x => k))
  (at level 10, x pattern, m at level 100, k at level 200).
Notation "'do' m 'then' k" := (bind m (fun _ => k))
  (at level 10, m at level 100, k at level 200).

(** ** cli.Context *)

Record Context := mkContext {
  Args : list string;
  flags : gmap string string;        (* flags of this command *)
  globalFlags : gmap string string   (* flags of the enclosing commands *)
}.

Definition NArg (c : Context) : nat := length (Args c).
Definition String_ (c : Context) (name : string) : string :=
  default "" (flags c !! name).
Definition GlobalString (c : Context) (name : string) : string :=
  default "" (globalFlags c !! name).
Definition First (args : list string) : string := default "" (args !! 0%nat).
Definition Get (args : list string) (n : nat) : string := default "" (args !! n).

(** cli.BeforeFunc, cli.AfterFunc and cli.ActionFunc; [None] is the nil
    function value. *)
Definition Func : Type := Context -> Go (option error).
Definition BeforeFunc : Type := option Func.

(** ** joinBefore *)

(** The body of the closure returned by [joinBefore]: the [for range]
    loop over [fns]. A panic of a hook unwinds through the loop like
    any Go panic. *)
Fixpoint joinBefore_loop (fns : list BeforeFunc) (c : Context) : Go (option error) :=
  fun w =>
    match fns with
    | [] => (w, Ret None)
    | None :: rest => joinBefore_loop rest c w
    | Some fn :: rest =>
        match fn c w with
        | (w1, Ret None) => joinBefore_loop rest c w1
        | (w1, Ret (Some err)) => (w1, Ret (Some err))
        | (w1, Panic p) => (w1, Panic p)
        end
    end.

Definition joinBefore (fns : list BeforeFunc) : BeforeFunc :=
  Some (joinBefore_loop fns).

(** ** Collaborators outside the file *)

Record Host := mkHost {
  (* os.Getenv and os.Args *)
  Getenv : string -> string;
  osArgs : list string;
  (* jaeger.NewUDPTransport(hostPort, maxPacketSize) *)
  NewUDPTransport : string -> Z -> Transport + error;
  (* Close of the closer returned by jaeger.NewTracer *)
  CloseTracer : Tracer -> option error;
  (* zerolog.ParseLevel *)
  ParseLevel : string -> Level + error;
  (* the remote service facade: ResolveAgent, ResolveApp and the
     operations of the handles *)
  ResolveAgent : Context -> string -> Agent + error;
  ResolveApp : Context -> string -> LabApp + error;
  Update : Agent -> GoContext -> string -> option error;
  Healthcheck : LabApp -> GoContext -> bool;
  Run : LabApp -> GoContext -> Task -> option error
}.

(** strings.Join(elems, sep) *)
Fixpoint Join (elems : list string) (sep : string) : string :=
  match elems with
  | [] => ""
  | [e] => e
  | e :: rest => (e ++ sep ++ Join rest sep)%string
  end.

(** ** cli.Command and cli.App *)

#[warnings="-register-all"] Inductive Command : Type := mkCommand {
  Name : string;
  Before : BeforeFunc;
  After : option Func;
  Action : option Func;
  Subcommands : list Command
}.

Record App := mkApp {
  Commands : list Command;
  AppBefore : BeforeFunc;   (* app.Before *)
  AppAfter : option Func    (* app.After *)
}.

Section WithHost.

Context (h : Host).

(** ** getTracer and nopCloser *)

Definition getTracer : Go (Tracer * Closer) :=
  let traceAddr := Getenv h "JAEGER_TRACE" in
  if decide (traceAddr ≠ "") then
    do emit (EvNewUDPTransport traceAddr 0) then
    match NewUDPTransport h traceAddr 0 with
    | inr err => raise (PanicError err)
    | inl tr =>
        let t := JaegerTracer "labctl" (ConstSampler true) (RemoteReporter tr) in
        ret (t, JaegerCloser t)
    end
  else ret (NoopTracer, nopCloser).

(** [closer.Close()]: the method of [*nopCloser] returns nil; the
    closer of a jaeger tracer is the library's. *)
Definition Close (cl : Closer) : Go (option error) :=
  do emit (EvClose cl) then
  match cl with
  | nopCloser => ret None
  | JaegerCloser t => ret (CloseTracer h t)
  end.

(** ** newLogger *)

Definition newLogger (c : Context) : (Logger * Writer) + error :=
  let writer := GlobalString c "log-writer" in
  let out :=
    if decide (writer = "console") then inl (ConsoleWriter Stderr)
    else if decide (writer = "json") then inl Stderr
    else inr (Wrapf ErrInvalidArgument "unknown log writer %q" writer) in
  match out with
  | inr err => inr err
  | inl out =>
      match ParseLevel h (GlobalString c "log-level") with
      | inr err => inr err
      | inl level => inl (mkLogger out level true, out)
      end
  end.

(** ** The capability map *)

Definition setMetadata (key : string) (v : value) : Go unit :=
  fun w => (mkWorld (<[key := v]> (Metadata w)) (span w) (ctx w) (events w), Ret tt).

(** [c.App.Metadata["context"].(context.Context)] *)
Definition CommandContext (c : Context) : Go GoContext :=
  fun w => match Metadata w !! "context" with
           | Some (VContext x) => (w, Ret x)
           | Some _ => (w, Panic (PanicTypeAssertion "context"))
           | None => (w, Panic (PanicNilInterface "context"))
           end.

(** [c.App.Metadata["printer"].(printer.Printer)] *)
Definition CommandPrinter (c : Context) : Go Printer :=
  fun w => match Metadata w !! "printer" with
           | Some (VPrinter p) => (w, Ret p)
           | Some _ => (w, Panic (PanicTypeAssertion "printer"))
           | None => (w, Panic (PanicNilInterface "printer"))
           end.

(** [c.App.Metadata["client"].( *httputil.Client)] *)
Definition CommandClient (c : Context) : Go nat :=
  fun w => match Metadata w !! "client" with
           | Some (VClient cl) => (w, Ret cl)
           | Some _ => (w, Panic (PanicTypeAssertion "client"))
           | None => (w, Panic (PanicNilInterface "client"))
           end.

(** ** AttachAppContext *)

Definition setSpan (sp : option Span) : Go unit :=
  fun w => (mkWorld (Metadata w) sp (ctx w) (events w), Ret tt).
Definition getSpan : Go (option Span) := fun w => (w, Ret (span w)).
Definition setCtx (x : GoContext) : Go unit :=
  fun w => (mkWorld (Metadata w) (span w) x (events w), Ret tt).
Definition getCtx : Go GoContext := fun w => (w, Ret (ctx w)).

(** [if fn != nil { if err := fn(c); err != nil { return err } }; rest] *)
Definition guarded (fn : option Func) (c : Context) (rest : Go (option error))
  : Go (option error) :=
  match fn with
  | None => rest
  | Some f =>
      let* err := f c in
      match err with
      | Some e => ret (Some e)
      | None => rest
      end
  end.

(** The part of the installed before hook that follows the call of the
    previous hook (lines 61-73). *)
Definition tracingHook (tracer : Tracer) (name : string) : Func :=
  fun c =>
    let sp := mkSpan tracer name in
    do emit (EvStartSpan tracer name) then
    do setSpan (Some sp) then
    do emit (EvLogFields sp "command" (Join (osArgs h) " ")) then
    match newLogger c with
    | inr err => ret (Some err)
    | inl (logger, writer) =>
        let* x := getCtx in
        let x := CtxWithLogger logger x in
        let x := CtxWithLogWriter writer x in
        let x := CtxWithSpan sp x in
        do setCtx x then
        do setMetadata "context" (VContext x) then
        ret None
    end.

(** The closure assigned to [app.Commands[i].Subcommands[j].Before]. *)
Definition tracingBefore (tracer : Tracer) (name : string) (before : BeforeFunc)
  : Func :=
  fun c => guarded before c (tracingHook tracer name c).

(** Lines 87-90: finish the span if one was started, close the closer. *)
Definition teardown (closer : Closer) : Go (option error) :=
  let* sp := getSpan in
  do (match sp with
      | Some s => emit (EvSpanFinish s)
      | None => ret tt
      end) then
  Close closer.

(** The closure assigned to [app.After]. *)
Definition teardownAfter (closer : Closer) (after : option Func) : Func :=
  fun c => guarded after c (teardown closer).

Definition wrapSubcommand (tracer : Tracer) (subcmd : Command) : Command :=
  mkCommand (Name subcmd)
            (Some (tracingBefore tracer (Name subcmd) (Before subcmd)))
            (After subcmd) (Action subcmd) (Subcommands subcmd).

Definition wrapCommand (tracer : Tracer) (cmd : Command) : Command :=
  mkCommand (Name cmd) (Before cmd) (After cmd) (Action cmd)
            (wrapSubcommand tracer <$> Subcommands cmd).

Definition AttachAppContext (ctx0 : GoContext) (app : App) : Go App :=
  let* (tracer, closer) := getTracer in
  do setSpan None then
  do setCtx ctx0 then
  ret (mkApp (wrapCommand tracer <$> Commands app)
             (AppBefore app)
             (Some (teardownAfter closer (AppAfter app)))).

(** ** AttachAppPrinter *)

Definition OutputUnix : string := "unix".
Definition OutputJSON : string := "json".

Definition printerHook : Func :=
  fun c =>
    let output := String_ c "output" in
    if decide (output = OutputUnix) then
      do setMetadata "printer" (VPrinter UnixPrinter) then ret None
    else if decide (output = OutputJSON) then
      do setMetadata "printer" (VPrinter JSONPrinter) then ret None
    else ret (Some (FmtErrorf "output %q is not valid" output)).

Definition AttachAppPrinter (app : App) : App :=
  mkApp (Commands app)
        (joinBefore [AppBefore app; Some printerHook])
        (AppAfter app).

(** ** Action handlers *)

(** [var url string; if c.NArg() > 0 { url = c.Args().First() }] *)
Definition updateURL (c : Context) : string :=
  if decide (0 < NArg c)%nat then First (Args c) else "".

Definition updateAgentAction : Func :=
  fun c =>
    let url := updateURL c in
    do emit (EvResolveAgent (String_ c "agent-addr")) then
    match ResolveAgent h c (String_ c "agent-addr") with
    | inr err => ret (Some err)
    | inl agent =>
        let* x := CommandContext c in
        do emit (EvUpdate agent x url) then
        match Update h agent x url with
        | Some err => ret (Some err)
        | None =>
            do emit (EvResolveApp (String_ c "app-addr")) then
            match ResolveApp h c (String_ c "app-addr") with
            | inr err => ret (Some err)
            | inl app =>
                do emit (EvHealthcheck app x) then
                if Healthcheck h app x then
                  do emit (EvLogInfo x "Labapp healthy") then ret None
                else ret (Some (ErrorsNew "labapp unhealthy"))
            end
        end
    end.

Definition runTaskAction : Func :=
  fun c =>
    if decide (NArg c ≠ 2%nat) then
      ret (Some (ErrorsNew "task type and subject must be provided"))
    else
      do emit (EvResolveApp (String_ c "app-addr")) then
      match ResolveApp h c (String_ c "app-addr") with
      | inr err => ret (Some err)
      | inl app =>
          let* x := CommandContext c in
          let task := mkTask (Get (Args c) 0) (Get (Args c) 1) in
          do emit (EvRun app x task) then
          match Run h app x task with
          | Some err => ret (Some err)
          | None => ret None
          end
      end.

End WithHost.

(** ** The host runtime's dispatch

    The hooks and handlers above are invoked by the command-line
    library, whose code is not part of the package. Its dispatch of one
    invocation is: at each level (application, command, subcommand) the
    After hook is deferred, the Before hook is called and a Before error
    is returned at once, then the next level (at the leaf, the Action)
    runs. A deferred After hook runs when its level returns or panics;
    its error replaces a nil error and is joined to a non-nil one. *)

Definition mergeAfter (r afterR : result (option error)) : result (option error) :=
  match afterR, r with
  | Panic p, _ => Panic p
  | Ret _, Panic p => Panic p
  | Ret None, Ret err => Ret err
  | Ret (Some afterErr), Ret None => Ret (Some afterErr)
  | Ret (Some afterErr), Ret (Some err) => Ret (Some (MultiError [err; afterErr]))
  end.

Definition deferAfter (after : option Func) (c : Context) (body : Go (option error))
  : Go (option error) :=
  fun w =>
    let '(w1, r1) := body w in
    match after with
    | None => (w1, r1)
    | Some a => let '(w2, r2) := a c w1 in (w2, mergeAfter r1 r2)
    end.

Definition runAction (action : option Func) (c : Context) : Go (option error) :=
  match action with
  | None => ret None
  | Some a => a c
  end.

Definition runLevel (before : BeforeFunc) (after : option Func) (c : Context)
    (next : Go (option error)) : Go (option error) :=
  deferAfter after c (guarded before c next).

Definition runSubcommand (subcmd : Command) (c : Context) : Go (option error) :=
  runLevel (Before subcmd) (After subcmd) c (runAction (Action subcmd) c).

Definition runCommand (cmd : Command) (j : nat) (cc cs : Context) : Go (option error) :=
  runLevel (Before cmd) (After cmd) cc
    match Subcommands cmd !! j with
    | Some subcmd => runSubcommand subcmd cs
    | None => runAction (Action cmd) cc
    end.

(** Everything the application runs before its deferred After hook. *)
Definition appBody (app : App) (i j : nat) (ca cc cs : Context) : Go (option error) :=
  guarded (AppBefore app) ca
    match Commands app !! i with
    | Some cmd => runCommand cmd j cc cs
    | None => ret None
    end.

Definition runApp (app : App) (i j : nat) (ca cc cs : Context) : Go (option error) :=
  deferAfter (AppAfter app) ca (appBody app i j ca cc cs).

(** ** Auxiliary definitions used in the statements *)

Definition addEvents (w : World) (evs : list Event) : World :=
  mkWorld (Metadata w) (span w) (ctx w) (events w ++ evs).

Definition withMetadata (w : World) (m : gmap string value) : World :=
  mkWorld m (span w) (ctx w) (events w).

(** A hook call that treats the nil hook as an immediate success. *)
Definition callHook (fn : option Func) (c : Context) : Go (option error) :=
  guarded fn c (ret None).

(** The hooks of a chain run one after the other, in the order of the
    list, up to the first one that does not return nil. *)
Fixpoint runInOrder (hooks : list Func) (c : Context) : Go (option error) :=
  match hooks with
  | [] => ret None
  | fn :: rest =>
      let* err := fn c in
      match err with
      | Some e => ret (Some e)
      | None => runInOrder rest c
      end
  end.


(** The events the teardown appends. *)
Definition teardownEvents (w : World) (closer : Closer) : list Event :=
  match span w with
  | Some s => [EvSpanFinish s; EvClose closer]
  | None => [EvClose closer]
  end.

(** [closer.Close()]'s return value. *)
Definition closeResult (h : Host) (closer : Closer) : option error :=
  match closer with
  | nopCloser => None
  | JaegerCloser t => CloseTracer h t
  end.

(** ** AttachAppClient *)

(** httputil.ClientOption; the file builds only [httputil.WithLogger]. *)
Inductive ClientOption := WithLogger (l : Logger).

Section WithClient.

Context (h : Host).
(** [httputil.NewClient(cleanhttp.DefaultClient(), opts...)] *)
Context (NewClient : list ClientOption -> nat + error).

Definition clientHook : Func :=
  fun c =>
    let opts : list ClientOption := [] in
    let opts :=
      if decide (GlobalString c "log-level" = "debug") then
        match newLogger h c with
        | inr err => inr err
        | inl (logger, _) => inl (opts ++ [WithLogger logger])
        end
      else inl opts in
    match opts with
    | inr err => ret (Some err)
    | inl opts =>
        match NewClient opts with
        | inr err => ret (Some err)
        | inl client =>
            do setMetadata "client" (VClient client) then ret None
        end
    end.

Definition AttachAppClient (app : App) : App :=
  mkApp (Commands app)
        (joinBefore [AppBefore app; Some clientHook])
        (AppAfter app).

End WithClient.

(** ** peerInfoAction *)


Section WithPeerInfo.

Context (h : Host).
(** [app.PeerInfo(ctx)]; the peer info itself is opaque. *)
Context (PeerInfo : LabApp -> GoContext -> nat + error).
(** [json.MarshalIndent(&peerInfo, "", "    ")] *)
Context (MarshalIndent : nat -> string + error).


End WithPeerInfo.

(** ** ExtractNameFromFilename

    Go strings are byte sequences; the path functions of the standard
    library work on them byte by byte, from the end. They are written
    here over the reversed byte list. The path separator is the one of
    the platforms labctl is built for, the slash; there is no volume
    name. *)

Definition slash : Ascii.ascii := Ascii.ascii_of_nat 47.
Definition dot : Ascii.ascii := Ascii.ascii_of_nat 46.

Definition isPathSeparator (ch : Ascii.ascii) : bool := Ascii.eqb ch slash.

(** The loop of [filepath.Base] that strips trailing separators, on the
    reversed path. *)
Fixpoint stripSeparators (rpath : list Ascii.ascii) : list Ascii.ascii :=
  match rpath with
  | ch :: rest => if isPathSeparator ch then stripSeparators rest else rpath
  | [] => []
  end.

(** The loop of [filepath.Base] that walks back to the last separator,
    on the reversed path; [acc] is the part already walked over. *)
Fixpoint lastElement (rpath acc : list Ascii.ascii) : list Ascii.ascii :=
  match rpath with
  | ch :: rest => if isPathSeparator ch then acc else lastElement rest (ch :: acc)
  | [] => acc
  end.

(** filepath.Base *)
Definition Base (path : list Ascii.ascii) : list Ascii.ascii :=
  match path with
  | [] => [dot]
  | _ =>
      match lastElement (stripSeparators (rev path)) [] with
      | [] => [slash]
      | elem => elem
      end
  end.

(** The loop of [filepath.Ext], on the reversed path: walk back while
    the byte is not a separator, return the tail from the first dot met. *)
Fixpoint extLoop (rpath acc : list Ascii.ascii) : list Ascii.ascii :=
  match rpath with
  | ch :: rest =>
      if isPathSeparator ch then []
      else if Ascii.eqb ch dot then ch :: acc
      else extLoop rest (ch :: acc)
  | [] => []
  end.

(** filepath.Ext *)
Definition Ext (path : list Ascii.ascii) : list Ascii.ascii :=
  extLoop (rev path) [].

(** strings.HasSuffix *)
Definition HasSuffix (s suffix : list Ascii.ascii) : bool :=
  (length suffix <=? length s)%nat
  && bool_decide (drop (length s - length suffix) s = suffix).

(** strings.TrimSuffix *)
Definition TrimSuffix (s suffix : list Ascii.ascii) : list Ascii.ascii :=
  if HasSuffix s suffix then take (length s - length suffix) s else s.

Definition ExtractNameFromFilename (filename : string) : string :=
  let path := String.list_ascii_of_string filename in
  String.string_of_list_ascii (TrimSuffix (Base path) (Ext path)).

(** ** Sample collaborators of the client hook and the peer-info handler *)

Definition sampleNewClient (opts : list ClientOption) : nat + error :=
  inl (length opts).
Definition samplePeerInfo (a : LabApp) (x : GoContext) : nat + error :=
  if decide (labapp_addr a = "http://localhost:7003") then inl 42%nat
  else inr (ForeignError 3).
Definition sampleMarshalIndent (peerInfo : nat) : string + error :=
  inl "{}".

(** ** Sample inputs *)

Definition sampleWorld : World := mkWorld ∅ None (CtxBase 0) [].

Definition sampleContext : Context :=
  mkContext ["transfer"; "image"]
            {[ "output" := "unix"; "app-addr" := "http://localhost:7003";
               "agent-addr" := "http://localhost:7002" ]}
            {[ "log-writer" := "console"; "log-level" := "debug" ]}.

Definition sampleHost (traceAddr : string) : Host :=
  mkHost (fun name => if decide (name = "JAEGER_TRACE") then traceAddr else "")
         ["labctl"; "debug"; "run"]
         (fun addr _ => if decide (addr = "unreachable:0")
                        then inr (ForeignError 1) else inl 7%nat)
         (fun _ => None)
         (fun s => if decide (s = "debug") then inl 0%Z
                   else if decide (s = "info") then inl 1%Z
                   else inr (FmtErrorf "Unknown Level String: '%s', defaulting to NoLevel" s))
         (fun _ addr => inl (mkAgent addr))
         (fun _ addr => inl (mkLabApp addr))
         (fun _ _ url => if decide (url = "bad") then Some (ForeignError 2) else None)
         (fun app _ => bool_decide (labapp_addr app = "http://localhost:7003"))
         (fun _ _ _ => None).

(** A world in which the execution context has been published. *)
Definition preparedWorld : World :=
  mkWorld {[ "context" := VContext (CtxBase 0) ]} None (CtxBase 0) [].

(** No positional argument, and an app address that is not healthy. *)
Definition unhealthyContext : Context :=
  mkContext []
            {[ "app-addr" := "http://down";
               "agent-addr" := "http://localhost:7002" ]}
            {[ "log-writer" := "json"; "log-level" := "info" ]}.

(** A hook that publishes a capability and succeeds, and one that fails. *)
Definition okHook : Func :=
  fun _ => do setMetadata "client" (VClient 1) then ret None.
Definition failingHook : Func :=
  fun _ => ret (Some (ErrorsNew "hook failed")).
Definition markerAction : Func :=
  fun _ => do emit (EvLogInfo (CtxBase 0) "body") then ret None.

(** A tree with one command group and one subcommand, whose top-level
    After hook fails. *)
Definition failingAfter : Func :=
  fun _ => ret (Some (ErrorsNew "after failed")).
Definition sampleTree (after : option Func) : App :=
  mkApp [mkCommand "debug" None None None
           [mkCommand "run" None None (Some markerAction) []]]
        None after.

(** * Properties *)

(** ** The hook chain *)

Lemma joinBefore_loop_app (pre post : list BeforeFunc) (c : Context) (w : World) :
  joinBefore_loop (pre ++ post) c w =
  match joinBefore_loop pre c w with
  | (w1, Ret None) => joinBefore_loop post c w1
  | other => other
  end.
Proof.
  revert w. induction pre as [|[fn|] pre IH]; intros w; simpl.
  - reflexivity.
  - destruct (fn c w) as [w1 [[e|]|p]]; auto.
  - apply IH.
Qed.

Lemma joinBefore_loop_in_order (fns : list BeforeFunc) (c : Context) (w : World) :
  joinBefore_loop fns c w = runInOrder (omap id fns) c w.
Proof.
  revert w. induction fns as [|[fn|] fns IH]; intros w; simpl.
  - reflexivity.
  - unfold bind. destruct (fn c w) as [w1 [[e|]|p]]; auto.
  - apply IH.
Qed.

Lemma guarded_joinBefore (fns : list BeforeFunc) (c : Context)
    (next : Go (option error)) (w : World) :
  guarded (joinBefore fns) c next w =
  match joinBefore_loop fns c w with
  | (w1, Ret None) => next w1
  | other => other
  end.
Proof.
  unfold guarded, joinBefore, bind.
  destruct (joinBefore_loop fns c w) as [w1 [[e|]|p]]; reflexivity.
Qed.

(** Chaining a chain: a chain used as the first hook of another chain
    behaves as if its hooks were spliced in, in order. *)
Lemma joinBefore_nested (inner rest : list BeforeFunc) (c : Context) (w : World) :
  joinBefore_loop (joinBefore inner :: rest) c w =
  joinBefore_loop (inner ++ rest) c w.
Proof.
  rewrite joinBefore_loop_app. unfold joinBefore. cbn [joinBefore_loop].
  destruct (joinBefore_loop inner c w) as [w1 [[e|]|p]]; reflexivity.
Qed.

(** C2. A chain runs its non-nil hooks in the order of the list and
    skips the nil ones. When the hooks before position i succeed and
    hook i returns an error, the chain returns that error in the very
    world hook i left: no later hook has run and nothing set by the
    earlier hooks is undone. A subcommand, or an application, whose
    Before hook is that chain then never starts what follows the hook
    (the action, the dispatch to the commands), whatever it is: the
    outcome is the one of a body that stops right after hook i, followed
    by the deferred After hook. *)
Theorem joinBefore_fail_fast
    (pre post : list BeforeFunc) (fn : Func) (c : Context)
    (w w1 w2 : World) (err : error) :
  joinBefore_loop pre c w = (w1, Ret None) ->
  fn c w1 = (w2, Ret (Some err)) ->
  joinBefore_loop (pre ++ Some fn :: post) c w = (w2, Ret (Some err))
  /\ joinBefore_loop (pre ++ Some fn :: post) c w =
     runInOrder (omap id pre ++ [fn]) c w
  /\ (forall fns, joinBefore_loop fns c w = runInOrder (omap id fns) c w)
  /\ (forall name after action subs,
        runSubcommand
          (mkCommand name (joinBefore (pre ++ Some fn :: post)) after action subs)
          c w
        = deferAfter after c (fun _ => (w2, Ret (Some err))) w)
  /\ (forall cmds after i j cc cs,
        runApp (mkApp cmds (joinBefore (pre ++ Some fn :: post)) after) i j c cc cs w
        = deferAfter after c (fun _ => (w2, Ret (Some err))) w).
Proof.
  intros Hpre Hfn.
  assert (Hchain :
    joinBefore_loop (pre ++ Some fn :: post) c w = (w2, Ret (Some err))).
  { rewrite joinBefore_loop_app, Hpre. simpl. rewrite Hfn. reflexivity. }
  split; [exact Hchain|].
  split.
  { rewrite Hchain. symmetry.
    replace (omap id pre ++ [fn]) with (omap id (pre ++ [Some fn]))
      by (rewrite omap_app; reflexivity).
    rewrite <- (joinBefore_loop_in_order (pre ++ [Some fn])).
    rewrite joinBefore_loop_app, Hpre. simpl. rewrite Hfn. reflexivity. }
  split; [intros fns; apply joinBefore_loop_in_order|].
  split.
  - intros name after action subs.
    unfold runSubcommand, runLevel, deferAfter; cbn [Before After Action].
    rewrite guarded_joinBefore, Hchain. reflexivity.
  - intros cmds after i j cc cs.
    unfold runApp, appBody, deferAfter; cbn [AppBefore AppAfter Commands].
    rewrite guarded_joinBefore, Hchain. reflexivity.
Qed.

Lemma joinBefore_fail_fast_witness :
  let chain := [Some okHook; None] ++ Some failingHook :: [Some okHook] in
  let w1 := withMetadata sampleWorld {[ "client" := VClient 1 ]} in
  joinBefore_loop chain sampleContext sampleWorld
    = (w1, Ret (Some (ErrorsNew "hook failed")))
  /\ runSubcommand (mkCommand "run" (joinBefore chain) None (Some markerAction) [])
       sampleContext sampleWorld
     = (w1, Ret (Some (ErrorsNew "hook failed"))).
Proof.
  pose proof (joinBefore_fail_fast [Some okHook; None] [Some okHook] failingHook
                sampleContext sampleWorld
                (withMetadata sampleWorld {[ "client" := VClient 1 ]})
                (withMetadata sampleWorld {[ "client" := VClient 1 ]})
                (ErrorsNew "hook failed") eq_refl eq_refl) as (H1 & _ & _ & H4 & _).
  split; [exact H1|].
  exact (H4 "run" None (Some markerAction) []).
Defined.

(** ** Teardown *)

Lemma teardown_spec (h : Host) (closer : Closer) (w : World) :
  teardown h closer w =
  (addEvents w (teardownEvents w closer), Ret (closeResult h closer)).
Proof.
  unfold teardown, teardownEvents, Close, closeResult, addEvents, getSpan, bind,
    emit, ret.
  destruct w as [m [s|] x evs]; destruct closer; simpl;
    rewrite <- ?app_assoc; reflexivity.
Qed.

Lemma guarded_callHook (fn : option Func) (c : Context)
    (next : Go (option error)) (w : World) :
  guarded fn c next w =
  match callHook fn c w with
  | (w1, Ret None) => next w1
  | other => other
  end.
Proof.
  unfold callHook, guarded, bind, ret. destruct fn as [f|]; [|reflexivity].
  destruct (f c w) as [w1 [[e|]|p]]; reflexivity.
Qed.


Lemma AttachAppContext_inv (h : Host) (ctx0 : GoContext) (app app' : App)
    (w w' : World) :
  AttachAppContext h ctx0 app w = (w', Ret app') ->
  exists w1 tracer closer,
    getTracer h w = (w1, Ret (tracer, closer))
    /\ app' = mkApp (wrapCommand h tracer <$> Commands app) (AppBefore app)
                    (Some (teardownAfter h closer (AppAfter app))).
Proof.
  unfold AttachAppContext, bind.
  destruct (getTracer h w) as [w1 [[tracer closer]|p]] eqn:Hg; [|discriminate].
  simpl. intros [= <- <-]. exists w1, tracer, closer. split; reflexivity.
Qed.

(** C1, as amended. The after hook installed by [AttachAppContext]
    calls the previous top-level after hook first. Whatever the body of
    the invocation did (success, failure of the action, failure of a
    before hook), when the previous hook is nil or returns nil the
    teardown runs once, right after it: the span is finished if one was
    started, the closer is closed, and the close error is the hook's
    result. When the previous hook returns an error, the installed hook
    returns that error and neither finishes the span nor closes the
    closer. *)
Theorem teardown_after_body
    (h : Host) (ctx0 : GoContext) (app app' : App) (w0 w0' : World)
    (i j : nat) (ca cc cs : Context) (w w1 : World) (r1 : result (option error)) :
  AttachAppContext h ctx0 app w0 = (w0', Ret app') ->
  appBody app' i j ca cc cs w = (w1, r1) ->
  exists wt tracer closer,
    getTracer h w0 = (wt, Ret (tracer, closer))
    /\ (forall w2,
          callHook (AppAfter app) ca w1 = (w2, Ret None) ->
          runApp app' i j ca cc cs w =
          (addEvents w2 (teardownEvents w2 closer),
           mergeAfter r1 (Ret (closeResult h closer))))
    /\ (forall w2 e,
          callHook (AppAfter app) ca w1 = (w2, Ret (Some e)) ->
          runApp app' i j ca cc cs w = (w2, mergeAfter r1 (Ret (Some e)))).
Proof.
  intros Hattach Hbody.
  destruct (AttachAppContext_inv _ _ _ _ _ _ Hattach)
    as (wt & tracer & closer & Hg & ->).
  exists wt, tracer, closer. split; [exact Hg|].
  unfold runApp, deferAfter. rewrite Hbody. cbn [AppAfter].
  unfold teardownAfter. rewrite guarded_callHook.
  split.
  - intros w2 Hafter. rewrite Hafter, teardown_spec. reflexivity.
  - intros w2 e Hafter. rewrite Hafter. reflexivity.
Qed.

Lemma teardown_after_body_witness :
  exists w0 app' w',
    AttachAppContext (sampleHost "") (CtxBase 0) (sampleTree None) sampleWorld
      = (w0, Ret app')
    /\ runApp app' 0 0 sampleContext sampleContext sampleContext w0 = (w', Ret None)
    /\ events w' =
       [EvStartSpan NoopTracer "run";
        EvLogFields (mkSpan NoopTracer "run") "command" "labctl debug run";
        EvLogInfo (CtxBase 0) "body";
        EvSpanFinish (mkSpan NoopTracer "run");
        EvClose nopCloser].
Proof.
  pose (app' := mkApp (wrapCommand (sampleHost "") NoopTracer
                         <$> Commands (sampleTree None))
                      None (Some (teardownAfter (sampleHost "") nopCloser None))).
  pose (w1 := fst (appBody app' 0 0 sampleContext sampleContext sampleContext
                     sampleWorld)).
  destruct (teardown_after_body (sampleHost "") (CtxBase 0) (sampleTree None) app'
              sampleWorld sampleWorld 0 0 sampleContext sampleContext sampleContext
              sampleWorld w1 (Ret None) eq_refl eq_refl)
    as (wt & tracer & closer & Hg & Hok & _).
  injection Hg as _ _ <-.
  exists sampleWorld, app', (addEvents w1 (teardownEvents w1 nopCloser)).
  split; [reflexivity|].
  split; [exact (Hok w1 eq_refl)|reflexivity].
Defined.

(** C1, the claim as stated fails: with a top-level After hook that
    returns an error, the invocation ends with the span started but
    never finished and the closer never closed. *)
Lemma teardown_skipped_when_after_hook_fails :
  exists w0 app' w',
    AttachAppContext (sampleHost "") (CtxBase 0) (sampleTree (Some failingAfter))
      sampleWorld = (w0, Ret app')
    /\ runApp app' 0 0 sampleContext sampleContext sampleContext w0
       = (w', Ret (Some (ErrorsNew "after failed")))
    /\ span w' = Some (mkSpan NoopTracer "run")
    /\ events w' =
       [EvStartSpan NoopTracer "run";
        EvLogFields (mkSpan NoopTracer "run") "command" "labctl debug run";
        EvLogInfo (CtxBase 0) "body"]
    /\ (EvSpanFinish (mkSpan NoopTracer "run") ∉ events w')
    /\ (EvClose nopCloser ∉ events w').
Proof.
  eexists _, _, _.
  split; [reflexivity|].
  split; [reflexivity|].
  split; [reflexivity|].
  split; [reflexivity|].
  split; cbn; intros Hin;
    repeat (apply elem_of_cons in Hin as [Hin|Hin]; [discriminate Hin|]);
    apply elem_of_nil in Hin; exact Hin.
Qed.

(** ** The instrumentation pass *)






(** ** Action handlers *)

(** C4. When the agent resolves and the execution context has been
    published, the update handler resolves the agent, then calls Update.
    An Update error is returned at once: the event log ends with the
    Update call, so neither the app resolution nor Healthcheck happened.
    After a successful Update the handler resolves the app and calls
    Healthcheck; a false answer makes it return the "labapp unhealthy"
    error although Update returned nil, a true answer makes it log and
    return nil. *)
Theorem updateAgentAction_order
    (h : Host) (c : Context) (w : World) (agent : Agent) (x : GoContext) :
  ResolveAgent h c (String_ c "agent-addr") = inl agent ->
  Metadata w !! "context" = Some (VContext x) ->
  (forall err,
      Update h agent x (updateURL c) = Some err ->
      updateAgentAction h c w =
      (addEvents w [EvResolveAgent (String_ c "agent-addr");
                    EvUpdate agent x (updateURL c)],
       Ret (Some err)))
  /\ (forall app,
        Update h agent x (updateURL c) = None ->
        ResolveApp h c (String_ c "app-addr") = inl app ->
        Healthcheck h app x = false ->
        updateAgentAction h c w =
        (addEvents w [EvResolveAgent (String_ c "agent-addr");
                      EvUpdate agent x (updateURL c);
                      EvResolveApp (String_ c "app-addr");
                      EvHealthcheck app x],
         Ret (Some (ErrorsNew "labapp unhealthy"))))
  /\ (forall app,
        Update h agent x (updateURL c) = None ->
        ResolveApp h c (String_ c "app-addr") = inl app ->
        Healthcheck h app x = true ->
        updateAgentAction h c w =
        (addEvents w [EvResolveAgent (String_ c "agent-addr");
                      EvUpdate agent x (updateURL c);
                      EvResolveApp (String_ c "app-addr");
                      EvHealthcheck app x;
                      EvLogInfo x "Labapp healthy"],
         Ret None)).
Proof.
  intros Hagent Hctx.
  unfold updateAgentAction, bind, emit, ret, CommandContext, addEvents.
  rewrite Hagent. cbn [Metadata span ctx events]. rewrite Hctx.
  repeat split.
  - intros err ->. cbn [Metadata span ctx events].
    rewrite <- !app_assoc. reflexivity.
  - intros app -> -> ->. cbn [Metadata span ctx events].
    rewrite <- !app_assoc. reflexivity.
  - intros app -> -> ->. cbn [Metadata span ctx events].
    rewrite <- !app_assoc. reflexivity.
Qed.

Lemma updateAgentAction_order_witness :
  updateAgentAction (sampleHost "") sampleContext preparedWorld =
  (addEvents preparedWorld
     [EvResolveAgent "http://localhost:7002";
      EvUpdate (mkAgent "http://localhost:7002") (CtxBase 0) "transfer";
      EvResolveApp "http://localhost:7003";
      EvHealthcheck (mkLabApp "http://localhost:7003") (CtxBase 0);
      EvLogInfo (CtxBase 0) "Labapp healthy"],
   Ret None)
  /\ updateAgentAction (sampleHost "") unhealthyContext preparedWorld =
     (addEvents preparedWorld
        [EvResolveAgent "http://localhost:7002";
         EvUpdate (mkAgent "http://localhost:7002") (CtxBase 0) "";
         EvResolveApp "http://down";
         EvHealthcheck (mkLabApp "http://down") (CtxBase 0)],
      Ret (Some (ErrorsNew "labapp unhealthy"))).
Proof.
  split.
  - destruct (updateAgentAction_order (sampleHost "") sampleContext preparedWorld
                (mkAgent "http://localhost:7002") (CtxBase 0) eq_refl eq_refl)
      as (_ & _ & Hhealthy).
    exact (Hhealthy (mkLabApp "http://localhost:7003") eq_refl eq_refl eq_refl).
  - destruct (updateAgentAction_order (sampleHost "") unhealthyContext preparedWorld
                (mkAgent "http://localhost:7002") (CtxBase 0) eq_refl eq_refl)
      as (_ & Hunhealthy & _).
    exact (Hunhealthy (mkLabApp "http://down") eq_refl eq_refl eq_refl).
Defined.

(** C5. With a number of positional arguments other than two the
    run-task handler returns its argument error in an unchanged world:
    the app was not resolved and no remote call was made. With exactly
    two arguments it resolves the app first and, once the app is resolved
    and the execution context read, dispatches the task made of the
    first argument as type and the second as subject, returning what
    Run returns. *)
Theorem runTaskAction_arguments (h : Host) (c : Context) (w : World) :
  (NArg c <> 2%nat ->
   runTaskAction h c w =
   (w, Ret (Some (ErrorsNew "task type and subject must be provided"))))
  /\ (forall ty subject,
        Args c = [ty; subject] ->
        runTaskAction h c w =
        match ResolveApp h c (String_ c "app-addr") with
        | inr err =>
            (addEvents w [EvResolveApp (String_ c "app-addr")], Ret (Some err))
        | inl app =>
            match Metadata w !! "context" with
            | Some (VContext x) =>
                (addEvents w [EvResolveApp (String_ c "app-addr");
                              EvRun app x (mkTask ty subject)],
                 Ret (Run h app x (mkTask ty subject)))
            | Some _ =>
                (addEvents w [EvResolveApp (String_ c "app-addr")],
                 Panic (PanicTypeAssertion "context"))
            | None =>
                (addEvents w [EvResolveApp (String_ c "app-addr")],
                 Panic (PanicNilInterface "context"))
            end
        end).
Proof.
  split.
  - intros Hn. unfold runTaskAction. rewrite decide_True by exact Hn. reflexivity.
  - intros ty subject Hargs. unfold runTaskAction, NArg.
    rewrite Hargs, decide_False by (cbn; lia).
    change (Get [ty; subject] 0) with ty.
    change (Get [ty; subject] 1) with subject.
    unfold bind, emit, ret, CommandContext, addEvents.
    cbn [Metadata span ctx events].
    destruct (ResolveApp h c (String_ c "app-addr")) as [app|err]; [|reflexivity].
    cbn [Metadata span ctx events].
    destruct (Metadata w !! "context") as [[x|p|cl|t]|]; try reflexivity.
    cbn [Metadata span ctx events]. rewrite <- app_assoc.
    destruct (Run h app x (mkTask ty subject)); reflexivity.
Qed.

Lemma runTaskAction_arguments_witness :
  runTaskAction (sampleHost "") unhealthyContext preparedWorld =
  (preparedWorld, Ret (Some (ErrorsNew "task type and subject must be provided")))
  /\ runTaskAction (sampleHost "") sampleContext preparedWorld =
     (addEvents preparedWorld
        [EvResolveApp "http://localhost:7003";
         EvRun (mkLabApp "http://localhost:7003") (CtxBase 0)
               (mkTask "transfer" "image")],
      Ret None).
Proof.
  split.
  - apply (runTaskAction_arguments (sampleHost "") unhealthyContext preparedWorld).
    cbn. lia.
  - exact (proj2 (runTaskAction_arguments (sampleHost "") sampleContext preparedWorld)
             "transfer" "image" eq_refl).
Defined.

(** ** The printer hook *)

Lemma callHook_Some (fn : Func) (c : Context) (w : World) :
  callHook (Some fn) c w = fn c w.
Proof.
  unfold callHook, guarded, bind, ret.
  destruct (fn c w) as [w1 [[e|]|p]]; reflexivity.
Qed.

(** C6. The printer hook publishes the unix printer under "printer"
    when the output value is "unix" and the JSON printer when it is
    "json"; for any other value it returns its "not valid" error and the
    world, hence the capability map, is unchanged. It is the hook that
    [AttachAppPrinter] chains after the previous top-level Before hook. *)
Theorem printerHook_output (c : Context) (w : World) :
  (String_ c "output" = "unix" ->
   printerHook c w =
   (withMetadata w (<["printer" := VPrinter UnixPrinter]> (Metadata w)), Ret None))
  /\ (String_ c "output" = "json" ->
      printerHook c w =
      (withMetadata w (<["printer" := VPrinter JSONPrinter]> (Metadata w)), Ret None))
  /\ (String_ c "output" <> "unix" -> String_ c "output" <> "json" ->
      printerHook c w =
      (w, Ret (Some (FmtErrorf "output %q is not valid" (String_ c "output")))))
  /\ (forall app,
        AppBefore (AttachAppPrinter app) = joinBefore [AppBefore app; Some printerHook]
        /\ (AppBefore app = None ->
            callHook (AppBefore (AttachAppPrinter app)) c w = printerHook c w)).
Proof.
  split; [|split; [|split]].
  - unfold printerHook, OutputUnix. intros ->. reflexivity.
  - unfold printerHook, OutputUnix, OutputJSON. intros ->. reflexivity.
  - unfold printerHook, OutputUnix, OutputJSON. intros Hu Hj.
    rewrite decide_False by exact Hu.
    rewrite decide_False by exact Hj. reflexivity.
  - intros app. split; [reflexivity|].
    intros Hnone. cbn [AttachAppPrinter AppBefore]. rewrite Hnone.
    unfold joinBefore. rewrite callHook_Some. cbn [joinBefore_loop].
    destruct (printerHook c w) as [w1 [[e|]|p]]; reflexivity.
Qed.

Lemma printerHook_output_witness :
  printerHook sampleContext sampleWorld =
  (withMetadata sampleWorld {[ "printer" := VPrinter UnixPrinter ]}, Ret None)
  /\ printerHook unhealthyContext sampleWorld =
     (sampleWorld, Ret (Some (FmtErrorf "output %q is not valid" ""))).
Proof.
  split.
  - exact (proj1 (printerHook_output sampleContext sampleWorld) eq_refl).
  - apply (printerHook_output unhealthyContext sampleWorld); discriminate.
Defined.

(** ** Logger construction *)

(** C7. [newLogger] returns an error exactly when the log-writer value
    is neither "console" nor "json" or the log-level string is rejected
    by the level parser. In every other case it returns no error, the
    sink selected by the log-writer value (the console writer over
    standard error, or standard error itself) and a logger writing to
    that sink at the parsed level. *)
Theorem newLogger_fails_iff (h : Host) (c : Context) :
  ((exists err, newLogger h c = inr err) <->
   (GlobalString c "log-writer" <> "console"
    /\ GlobalString c "log-writer" <> "json")
   \/ (exists err, ParseLevel h (GlobalString c "log-level") = inr err))
  /\ (forall level,
        GlobalString c "log-writer" = "console" ->
        ParseLevel h (GlobalString c "log-level") = inl level ->
        newLogger h c =
        inl (mkLogger (ConsoleWriter Stderr) level true, ConsoleWriter Stderr))
  /\ (forall level,
        GlobalString c "log-writer" = "json" ->
        ParseLevel h (GlobalString c "log-level") = inl level ->
        newLogger h c = inl (mkLogger Stderr level true, Stderr))
  /\ (GlobalString c "log-writer" <> "console" ->
      GlobalString c "log-writer" <> "json" ->
      newLogger h c =
      inr (Wrapf ErrInvalidArgument "unknown log writer %q"
                 (GlobalString c "log-writer"))).
Proof.
  unfold newLogger.
  destruct (decide (GlobalString c "log-writer" = "console")) as [Hc|Hc];
    [|destruct (decide (GlobalString c "log-writer" = "json")) as [Hj|Hj]];
    destruct (ParseLevel h (GlobalString c "log-level")) as [level|perr] eqn:Hp.
  all: repeat split.
  all: try (intros; congruence).
  all: try (intros [err Herr]; discriminate Herr).
  all: try (intros [[? ?]|[err Herr]]; congruence).
  all: try (intros _; eauto).
  all: try (intros _; right; eauto).
  all: try (intros; rewrite Hc in *; discriminate).
Qed.

Lemma newLogger_fails_iff_witness :
  newLogger (sampleHost "") sampleContext =
  inl (mkLogger (ConsoleWriter Stderr) 0%Z true, ConsoleWriter Stderr)
  /\ newLogger (sampleHost "") unhealthyContext = inl (mkLogger Stderr 1%Z true, Stderr)
  /\ newLogger (sampleHost "") (mkContext [] ∅ ∅) =
     inr (Wrapf ErrInvalidArgument "unknown log writer %q" "").
Proof.
  split; [|split].
  - apply (newLogger_fails_iff (sampleHost "") sampleContext); reflexivity.
  - apply (newLogger_fails_iff (sampleHost "") unhealthyContext); reflexivity.
  - destruct (newLogger_fails_iff (sampleHost "") (mkContext [] ∅ ∅))
      as (_ & _ & _ & Hunknown).
    apply Hunknown; intros Heq; vm_compute in Heq; discriminate Heq.
Defined.

(** ** The capability map *)

(** C8, the claim as stated fails: publishing a capability under a key
    that is already set succeeds and replaces the stored value, and
    reading an absent capability panics instead of returning an error. *)
Lemma capability_set_twice_succeeds :
  Metadata preparedWorld !! "context" = Some (VContext (CtxBase 0))
  /\ setMetadata "context" (VContext (CtxBase 1)) preparedWorld =
     (withMetadata preparedWorld {[ "context" := VContext (CtxBase 1) ]}, Ret tt)
  /\ CommandContext sampleContext sampleWorld =
     (sampleWorld, Panic (PanicNilInterface "context")).
Proof. repeat split. Qed.

(** C8, as amended. Setting a capability is a map assignment: it always
    returns normally, stores the value under the key whether or not the
    key was set before, and leaves the other keys alone. Getting a
    capability (the context, the printer or the client) returns the
    stored value exactly when the key holds a value of the expected
    type; on an absent key and on a value of another type it panics,
    and in no case is the world changed. *)
Theorem capability_store (key : string) (v : value) (c : Context) (w : World) :
  (setMetadata key v w = (withMetadata w (<[key := v]> (Metadata w)), Ret tt)
   /\ <[key := v]> (Metadata w) !! key = Some v
   /\ (forall k, k <> key -> <[key := v]> (Metadata w) !! k = Metadata w !! k))
  /\ ((forall x, Metadata w !! "context" = Some (VContext x) <->
                 CommandContext c w = (w, Ret x))
      /\ (Metadata w !! "context" = None <->
          CommandContext c w = (w, Panic (PanicNilInterface "context")))
      /\ ((exists u, Metadata w !! "context" = Some u
                     /\ forall x, u <> VContext x) <->
          CommandContext c w = (w, Panic (PanicTypeAssertion "context"))))
  /\ ((forall p, Metadata w !! "printer" = Some (VPrinter p) <->
                 CommandPrinter c w = (w, Ret p))
      /\ (Metadata w !! "printer" = None <->
          CommandPrinter c w = (w, Panic (PanicNilInterface "printer")))
      /\ ((exists u, Metadata w !! "printer" = Some u
                     /\ forall p, u <> VPrinter p) <->
          CommandPrinter c w = (w, Panic (PanicTypeAssertion "printer"))))
  /\ ((forall cl, Metadata w !! "client" = Some (VClient cl) <->
                  CommandClient c w = (w, Ret cl))
      /\ (Metadata w !! "client" = None <->
          CommandClient c w = (w, Panic (PanicNilInterface "client")))
      /\ ((exists u, Metadata w !! "client" = Some u
                     /\ forall cl, u <> VClient cl) <->
          CommandClient c w = (w, Panic (PanicTypeAssertion "client")))).
Proof.
  split; [|split; [|split]].
  - split; [reflexivity|]. split; [apply lookup_insert_eq|].
    intros k Hk. apply lookup_insert_ne. congruence.
  - unfold CommandContext.
    destruct (Metadata w !! "context") as [[x|p|cl|t]|];
      (split; [|split]); try intros y; split;
      try (intros [u [[= <-] Hu]]); try intros [= ->]; try intros [=];
      try reflexivity; try congruence; try (eexists; split; [reflexivity|];
      intros ?; discriminate).
    all: exfalso; eapply Hu; reflexivity.
  - unfold CommandPrinter.
    destruct (Metadata w !! "printer") as [[x|p|cl|t]|];
      (split; [|split]); try intros y; split;
      try (intros [u [[= <-] Hu]]); try intros [= ->]; try intros [=];
      try reflexivity; try congruence; try (eexists; split; [reflexivity|];
      intros ?; discriminate).
    all: exfalso; eapply Hu; reflexivity.
  - unfold CommandClient.
    destruct (Metadata w !! "client") as [[x|p|cl|t]|];
      (split; [|split]); try intros y; split;
      try (intros [u [[= <-] Hu]]); try intros [= ->]; try intros [=];
      try reflexivity; try congruence; try (eexists; split; [reflexivity|];
      intros ?; discriminate).
    all: exfalso; eapply Hu; reflexivity.
Qed.

(** ** Tracer construction *)

(** C9. With the trace-collector variable unset or empty, [getTracer]
    returns the no-op tracer and the no-op closer without constructing
    any transport (the world, event log included, is unchanged), and
    closing that closer returns nil. With the variable set and the
    transport to that address constructed, it returns the "labctl"
    tracer with a constant sampler and a remote reporter over that
    transport, the tracer being its own closer. *)
Theorem getTracer_by_environment (h : Host) (w : World) :
  (Getenv h "JAEGER_TRACE" = "" ->
   getTracer h w = (w, Ret (NoopTracer, nopCloser))
   /\ (forall w', Close h nopCloser w' = (addEvents w' [EvClose nopCloser], Ret None))
   /\ (forall w', teardown h nopCloser w' =
                  (addEvents w' (teardownEvents w' nopCloser), Ret None)))
  /\ (forall tr,
        Getenv h "JAEGER_TRACE" <> "" ->
        NewUDPTransport h (Getenv h "JAEGER_TRACE") 0 = inl tr ->
        let t := JaegerTracer "labctl" (ConstSampler true) (RemoteReporter tr) in
        getTracer h w =
        (addEvents w [EvNewUDPTransport (Getenv h "JAEGER_TRACE") 0],
         Ret (t, JaegerCloser t))).
Proof.
  split.
  - intros Hunset. unfold getTracer. rewrite Hunset.
    rewrite decide_False by (intros Hne; apply Hne; reflexivity).
    split; [reflexivity|]. split; [reflexivity|].
    intros w'. apply teardown_spec.
  - intros tr Hset Htr t. unfold getTracer.
    rewrite decide_True by exact Hset.
    unfold bind, emit. rewrite Htr. reflexivity.
Qed.

Lemma getTracer_by_environment_witness :
  getTracer (sampleHost "") sampleWorld = (sampleWorld, Ret (NoopTracer, nopCloser))
  /\ getTracer (sampleHost "collector:6831") sampleWorld =
     (addEvents sampleWorld [EvNewUDPTransport "collector:6831" 0],
      Ret (JaegerTracer "labctl" (ConstSampler true) (RemoteReporter 7%nat),
           JaegerCloser
             (JaegerTracer "labctl" (ConstSampler true) (RemoteReporter 7%nat)))).
Proof.
  split.
  - apply (getTracer_by_environment (sampleHost "") sampleWorld). reflexivity.
  - apply (proj2 (getTracer_by_environment (sampleHost "collector:6831") sampleWorld)
             7%nat); [discriminate|reflexivity].
Defined.

(** C10. With the trace-collector variable set and the construction of
    the UDP transport to that address failing, [getTracer] panics with
    the construction error, and so does [AttachAppContext]: no error
    value is returned and no instrumented tree is produced. *)
Theorem getTracer_panics_on_transport_error
    (h : Host) (w : World) (err : error) :
  Getenv h "JAEGER_TRACE" <> "" ->
  NewUDPTransport h (Getenv h "JAEGER_TRACE") 0 = inr err ->
  getTracer h w =
  (addEvents w [EvNewUDPTransport (Getenv h "JAEGER_TRACE") 0],
   Panic (PanicError err))
  /\ (forall ctx0 app,
        AttachAppContext h ctx0 app w =
        (addEvents w [EvNewUDPTransport (Getenv h "JAEGER_TRACE") 0],
         Panic (PanicError err))).
Proof.
  intros Hset Herr.
  assert (Hg : getTracer h w =
               (addEvents w [EvNewUDPTransport (Getenv h "JAEGER_TRACE") 0],
                Panic (PanicError err))).
  { unfold getTracer. rewrite decide_True by exact Hset.
    unfold bind, emit, raise. rewrite Herr. reflexivity. }
  split; [exact Hg|].
  intros ctx0 app. unfold AttachAppContext, bind. rewrite Hg. reflexivity.
Qed.

Lemma getTracer_panics_on_transport_error_witness :
  getTracer (sampleHost "unreachable:0") sampleWorld =
  (addEvents sampleWorld [EvNewUDPTransport "unreachable:0" 0],
   Panic (PanicError (ForeignError 1))).
Proof.
  apply (getTracer_panics_on_transport_error (sampleHost "unreachable:0")
           sampleWorld (ForeignError 1)); [discriminate|reflexivity].
Defined.

(** * Further properties of the package *)

(** ** Hook chains *)

(** X1. A chain made only of nil hooks, the empty chain included, does
    nothing and succeeds. *)
Theorem joinBefore_all_nil (fns : list BeforeFunc) (c : Context) (w : World) :
  Forall (fun fn => fn = None) fns ->
  joinBefore_loop fns c w = (w, Ret None).
Proof.
  induction 1 as [|fn fns -> _ IH]; [reflexivity|exact IH].
Qed.

Lemma joinBefore_all_nil_witness :
  joinBefore_loop [None; None; None] sampleContext preparedWorld
  = (preparedWorld, Ret None).
Proof.
  apply joinBefore_all_nil. repeat constructor.
Defined.

(** X2. Chains compose associatively: a chain whose hooks are
    themselves chains behaves like the single chain of all their hooks,
    in order, however the hooks were grouped. *)
Theorem joinBefore_flatten (chains : list (list BeforeFunc)) (c : Context) (w : World) :
  joinBefore_loop (joinBefore <$> chains) c w = joinBefore_loop (concat chains) c w.
Proof.
  revert w. induction chains as [|chain chains IH]; intros w; [reflexivity|].
  cbn [fmap list_fmap concat].
  rewrite joinBefore_loop_app. unfold joinBefore at 1. cbn [joinBefore_loop].
  destruct (joinBefore_loop chain c w) as [w1 [[e|]|p]]; auto.
Qed.

(** X3. A panic of a hook unwinds through the chain: when the hooks
    before it succeed and hook i panics, the chain panics with the same
    value in the world hook i left, and no later hook runs. *)
Theorem joinBefore_panic
    (pre post : list BeforeFunc) (fn : Func) (c : Context)
    (w w1 w2 : World) (p : panic) :
  joinBefore_loop pre c w = (w1, Ret None) ->
  fn c w1 = (w2, Panic p) ->
  joinBefore_loop (pre ++ Some fn :: post) c w = (w2, Panic p).
Proof.
  intros Hpre Hfn. rewrite joinBefore_loop_app, Hpre.
  cbn [joinBefore_loop]. rewrite Hfn. reflexivity.
Qed.

Lemma joinBefore_panic_witness :
  joinBefore_loop
    ([Some okHook] ++ Some (fun c => let* _ := CommandContext c in ret None)
       :: [Some failingHook])
    sampleContext sampleWorld
  = (withMetadata sampleWorld {[ "client" := VClient 1 ]},
     Panic (PanicNilInterface "context")).
Proof.
  apply (joinBefore_panic [Some okHook] [Some failingHook] _ sampleContext
           sampleWorld (withMetadata sampleWorld {[ "client" := VClient 1 ]}));
    reflexivity.
Defined.

(** ** The tracing and logging hook *)

Lemma tracingHook_spec (h : Host) (tracer : Tracer) (name : string)
    (c : Context) (w : World) :
  let sp := mkSpan tracer name in
  let evs := events w ++ [EvStartSpan tracer name;
                          EvLogFields sp "command" (Join (osArgs h) " ")] in
  tracingHook h tracer name c w =
  match newLogger h c with
  | inr err => (mkWorld (Metadata w) (Some sp) (ctx w) evs, Ret (Some err))
  | inl (logger, writer) =>
      let x := CtxWithSpan sp (CtxWithLogWriter writer (CtxWithLogger logger (ctx w))) in
      (mkWorld (<["context" := VContext x]> (Metadata w)) (Some sp) x evs, Ret None)
  end.
Proof.
  unfold tracingHook, bind, emit, setSpan, getCtx, setCtx, setMetadata, ret.
  cbn [Metadata span ctx events]. rewrite <- app_assoc.
  destruct (newLogger h c) as [[logger writer]|err]; reflexivity.
Qed.

(** X4. When the logger cannot be built, the tracing hook has already
    started the span and logged the command line on it: it returns the
    logger's error with the span recorded, publishes no context and
    leaves the captured context as it was; the teardown then finishes
    that very span before closing the closer. *)
Theorem tracingHook_logger_error
    (h : Host) (tracer : Tracer) (closer : Closer) (name : string)
    (c : Context) (w : World) (err : error) :
  newLogger h c = inr err ->
  exists w',
    tracingHook h tracer name c w = (w', Ret (Some err))
    /\ Metadata w' = Metadata w
    /\ ctx w' = ctx w
    /\ span w' = Some (mkSpan tracer name)
    /\ events w' =
       events w ++ [EvStartSpan tracer name;
                    EvLogFields (mkSpan tracer name) "command" (Join (osArgs h) " ")]
    /\ teardown h closer w' =
       (addEvents w' [EvSpanFinish (mkSpan tracer name); EvClose closer],
        Ret (closeResult h closer)).
Proof.
  intros Herr. eexists. rewrite tracingHook_spec, Herr.
  split; [reflexivity|]. repeat (split; [reflexivity|]).
  rewrite teardown_spec. reflexivity.
Qed.

Lemma tracingHook_logger_error_witness :
  exists w',
    tracingHook (sampleHost "") NoopTracer "run" (mkContext [] ∅ ∅) sampleWorld
    = (w', Ret (Some (Wrapf ErrInvalidArgument "unknown log writer %q" "")))
    /\ Metadata w' = ∅
    /\ span w' = Some (mkSpan NoopTracer "run").
Proof.
  assert (Hlog : newLogger (sampleHost "") (mkContext [] ∅ ∅) =
                 inr (Wrapf ErrInvalidArgument "unknown log writer %q" ""))
    by reflexivity.
  destruct (tracingHook_logger_error (sampleHost "") NoopTracer nopCloser "run"
              (mkContext [] ∅ ∅) sampleWorld _ Hlog)
    as (w' & Hrun & Hmeta & _ & Hspan & _).
  exists w'. split; [exact Hrun|]. split; [exact Hmeta|exact Hspan].
Defined.

(** X5. When the logger is built, the tracing hook publishes under
    "context" the captured context extended with the logger, the log
    writer and, outermost, the span it started; reading the capability
    back returns exactly that context, which is also the new value of
    the captured context. *)
Theorem tracingHook_publishes_context
    (h : Host) (tracer : Tracer) (name : string) (c c' : Context) (w : World)
    (logger : Logger) (writer : Writer) :
  newLogger h c = inl (logger, writer) ->
  let x := CtxWithSpan (mkSpan tracer name)
             (CtxWithLogWriter writer (CtxWithLogger logger (ctx w))) in
  exists w',
    tracingHook h tracer name c w = (w', Ret None)
    /\ CommandContext c' w' = (w', Ret x)
    /\ ctx w' = x
    /\ span w' = Some (mkSpan tracer name)
    /\ (forall key, key <> "context" -> Metadata w' !! key = Metadata w !! key).
Proof.
  intros Hlog x. eexists. rewrite tracingHook_spec, Hlog.
  split; [reflexivity|]. split.
  { unfold CommandContext. cbn [Metadata]. rewrite lookup_insert_eq. reflexivity. }
  repeat (split; [reflexivity|]).
  intros key Hkey. cbn [Metadata]. apply lookup_insert_ne. congruence.
Qed.

Lemma tracingHook_publishes_context_witness :
  exists w',
    tracingHook (sampleHost "") NoopTracer "run" sampleContext sampleWorld
    = (w', Ret None)
    /\ CommandContext sampleContext w' =
       (w', Ret (CtxWithSpan (mkSpan NoopTracer "run")
                   (CtxWithLogWriter (ConsoleWriter Stderr)
                      (CtxWithLogger (mkLogger (ConsoleWriter Stderr) 0%Z true)
                         (CtxBase 0))))).
Proof.
  destruct (tracingHook_publishes_context (sampleHost "") NoopTracer "run"
              sampleContext sampleContext sampleWorld
              (mkLogger (ConsoleWriter Stderr) 0%Z true) (ConsoleWriter Stderr)
              eq_refl)
    as (w' & Hrun & Hget & _).
  exists w'. split; [exact Hrun|exact Hget].
Defined.

(** ** Hooks and capabilities *)

(** X6. Each hook writes only its own capability: the printer hook
    changes nothing but the "printer" entry, the client hook nothing but
    the "client" entry, and neither touches the captured span, the
    captured context or the event log, whether it succeeds or fails; the
    tracing hook leaves every entry other than "context" alone. *)
Theorem hooks_write_only_their_capability
    (h : Host) (NewClient : list ClientOption -> nat + error)
    (tracer : Tracer) (name : string) (c : Context) (w : World) :
  (let w' := (printerHook c w).1 in
   span w' = span w /\ ctx w' = ctx w /\ events w' = events w
   /\ forall key, key <> "printer" -> Metadata w' !! key = Metadata w !! key)
  /\ (let w' := (clientHook h NewClient c w).1 in
      span w' = span w /\ ctx w' = ctx w /\ events w' = events w
      /\ forall key, key <> "client" -> Metadata w' !! key = Metadata w !! key)
  /\ (let w' := (tracingHook h tracer name c w).1 in
      forall key, key <> "context" -> Metadata w' !! key = Metadata w !! key).
Proof.
  split; [|split].
  - unfold printerHook, bind, setMetadata, ret.
    repeat case_decide; cbn; repeat split; auto;
      intros key Hkey; apply lookup_insert_ne; congruence.
  - unfold clientHook, bind, setMetadata, ret.
    repeat case_decide;
      repeat match goal with
             | |- context [ match ?x with _ => _ end ] => destruct x as [?|?]
             | p : _ * _ |- _ => destruct p
             end;
      cbn; repeat split; auto;
      intros key Hkey; apply lookup_insert_ne; congruence.
  - rewrite tracingHook_spec.
    destruct (newLogger h c) as [[logger writer]|err]; cbn; [|reflexivity].
    intros key Hkey. apply lookup_insert_ne. congruence.
Qed.

(** X7. The printer hook and the tracing hook can run in either order:
    when the output value is valid and the logger can be built, both
    orders succeed and leave the same world, in which the context and
    the printer can both be read. *)
Theorem printer_and_tracing_hooks_commute
    (h : Host) (tracer : Tracer) (name : string) (c : Context) (w : World)
    (logger : Logger) (writer : Writer) :
  String_ c "output" = "unix" \/ String_ c "output" = "json" ->
  newLogger h c = inl (logger, writer) ->
  exists w' x p,
    joinBefore_loop [Some printerHook; Some (tracingHook h tracer name)] c w
      = (w', Ret None)
    /\ joinBefore_loop [Some (tracingHook h tracer name); Some printerHook] c w
       = (w', Ret None)
    /\ CommandContext c w' = (w', Ret x)
    /\ CommandPrinter c w' = (w', Ret p).
Proof.
  intros Hout Hlog.
  assert (Hp : exists p,
             forall w0, printerHook c w0 =
                        (withMetadata w0 (<["printer" := VPrinter p]> (Metadata w0)),
                         Ret None)).
  { unfold printerHook, OutputUnix, OutputJSON.
    destruct Hout as [-> | ->]; eexists; intros w0; reflexivity. }
  destruct Hp as [p Hp].
  eexists _, _, p.
  cbn [joinBefore_loop].
  rewrite Hp, !tracingHook_spec, Hlog. cbv beta iota zeta. rewrite Hp.
  cbn [withMetadata Metadata span ctx events].
  split; [reflexivity|]. split.
  { rewrite insert_insert_ne by discriminate. reflexivity. }
  split.
  - unfold CommandContext. cbn [Metadata]. rewrite lookup_insert_eq. reflexivity.
  - unfold CommandPrinter. cbn [Metadata].
    rewrite lookup_insert_ne by discriminate.
    rewrite lookup_insert_eq. reflexivity.
Qed.

Lemma printer_and_tracing_hooks_commute_witness :
  exists w',
    joinBefore_loop [Some printerHook; Some (tracingHook (sampleHost "") NoopTracer "run")]
      sampleContext sampleWorld = (w', Ret None)
    /\ joinBefore_loop [Some (tracingHook (sampleHost "") NoopTracer "run");
                        Some printerHook]
         sampleContext sampleWorld = (w', Ret None).
Proof.
  destruct (printer_and_tracing_hooks_commute (sampleHost "") NoopTracer "run"
              sampleContext sampleWorld
              (mkLogger (ConsoleWriter Stderr) 0%Z true) (ConsoleWriter Stderr)
              (or_introl eq_refl) eq_refl)
    as (w' & x & p & H1 & H2 & _).
  exists w'. split; [exact H1|exact H2].
Defined.

(** ** Instrumented subcommands *)

Lemma runSubcommand_wrapped (h : Host) (tracer : Tracer) (subcmd : Command)
    (c : Context) (w : World) :
  runSubcommand (wrapSubcommand h tracer subcmd) c w =
  deferAfter (After subcmd) c
    (fun w0 =>
       match callHook (Before subcmd) c w0 with
       | (w1, Ret None) =>
           match tracingHook h tracer (Name subcmd) c w1 with
           | (w2, Ret None) => runAction (Action subcmd) c w2
           | other => other
           end
       | other => other
       end) w.
Proof.
  unfold runSubcommand, runLevel, deferAfter.
  cbn [wrapSubcommand Before After Action Name].
  rewrite guarded_callHook, callHook_Some.
  unfold tracingBefore. rewrite guarded_callHook.
  destruct (callHook (Before subcmd) c w) as [w1 [[e|]|p]]; reflexivity.
Qed.

(** X8. In an instrumented subcommand whose own Before hook is nil or
    succeeds and whose logger can be built, the action starts in a
    world where the execution context is published: reading it cannot
    panic and yields the context carrying the span named after the
    subcommand. *)
Theorem wrapped_action_sees_context
    (h : Host) (tracer : Tracer) (subcmd : Command) (act : Func)
    (c : Context) (w w1 : World) (logger : Logger) (writer : Writer) :
  Action subcmd = Some act ->
  callHook (Before subcmd) c w = (w1, Ret None) ->
  newLogger h c = inl (logger, writer) ->
  let x := CtxWithSpan (mkSpan tracer (Name subcmd))
             (CtxWithLogWriter writer (CtxWithLogger logger (ctx w1))) in
  exists w2,
    runSubcommand (wrapSubcommand h tracer subcmd) c w =
    deferAfter (After subcmd) c (fun _ => act c w2) w
    /\ CommandContext c w2 = (w2, Ret x)
    /\ events w2 =
       events w1 ++ [EvStartSpan tracer (Name subcmd);
                     EvLogFields (mkSpan tracer (Name subcmd)) "command"
                                 (Join (osArgs h) " ")].
Proof.
  intros Hact Hbefore Hlog x. eexists.
  rewrite runSubcommand_wrapped. unfold deferAfter.
  rewrite Hbefore, tracingHook_spec, Hlog, Hact. cbv beta iota zeta.
  split; [reflexivity|]. split; [|reflexivity].
  unfold CommandContext. cbn [Metadata]. rewrite lookup_insert_eq. reflexivity.
Qed.

Lemma wrapped_action_sees_context_witness :
  exists w2,
    runSubcommand
      (wrapSubcommand (sampleHost "") NoopTracer
         (mkCommand "run" None None (Some markerAction) []))
      sampleContext sampleWorld
    = markerAction sampleContext w2
    /\ CommandContext sampleContext w2 =
       (w2, Ret (CtxWithSpan (mkSpan NoopTracer "run")
                   (CtxWithLogWriter (ConsoleWriter Stderr)
                      (CtxWithLogger (mkLogger (ConsoleWriter Stderr) 0%Z true)
                         (CtxBase 0))))).
Proof.
  destruct (wrapped_action_sees_context (sampleHost "") NoopTracer
              (mkCommand "run" None None (Some markerAction) [])
              markerAction sampleContext sampleWorld sampleWorld
              (mkLogger (ConsoleWriter Stderr) 0%Z true) (ConsoleWriter Stderr)
              eq_refl eq_refl eq_refl)
    as (w2 & Hrun & Hctx & _).
  exists w2. split; [exact Hrun|exact Hctx].
Defined.

(** X9. In an instrumented subcommand whose own Before hook returns an
    error, the tracing hook does not run: the error is returned in the
    world the Before hook left, with no span started and no context
    published, and the action does not start. A teardown reached with
    no span started only closes the closer. *)
Theorem wrapped_before_error_starts_no_span
    (h : Host) (tracer : Tracer) (closer : Closer) (subcmd : Command)
    (c : Context) (w w1 : World) (e : error) :
  callHook (Before subcmd) c w = (w1, Ret (Some e)) ->
  runSubcommand (wrapSubcommand h tracer subcmd) c w =
  deferAfter (After subcmd) c (fun _ => (w1, Ret (Some e))) w
  /\ (span w1 = None ->
      teardown h closer w1 = (addEvents w1 [EvClose closer], Ret (closeResult h closer))).
Proof.
  intros Hbefore. split.
  - rewrite runSubcommand_wrapped. unfold deferAfter. rewrite Hbefore. reflexivity.
  - intros Hspan. rewrite teardown_spec. unfold teardownEvents.
    rewrite Hspan. reflexivity.
Qed.

Lemma wrapped_before_error_starts_no_span_witness :
  runSubcommand
    (wrapSubcommand (sampleHost "") NoopTracer
       (mkCommand "run" (Some failingHook) None (Some markerAction) []))
    sampleContext sampleWorld
  = (sampleWorld, Ret (Some (ErrorsNew "hook failed"))).
Proof.
  apply (wrapped_before_error_starts_no_span (sampleHost "") NoopTracer nopCloser
           (mkCommand "run" (Some failingHook) None (Some markerAction) [])
           sampleContext sampleWorld sampleWorld (ErrorsNew "hook failed") eq_refl).
Defined.

(** X10. The run-task handler behind an instrumented subcommand with no
    hooks of its own: with two positional arguments, a logger that can
    be built and an app that resolves, the invocation never panics; it
    starts the span, resolves the app and calls Run with the task and
    with the context that carries that span, and returns what Run
    returns. *)
Theorem wrapped_runTaskAction
    (h : Host) (tracer : Tracer) (name : string) (subs : list Command)
    (c : Context) (w : World) (ty subject : string)
    (logger : Logger) (writer : Writer) (app : LabApp) :
  Args c = [ty; subject] ->
  newLogger h c = inl (logger, writer) ->
  ResolveApp h c (String_ c "app-addr") = inl app ->
  let sp := mkSpan tracer name in
  let x := CtxWithSpan sp (CtxWithLogWriter writer (CtxWithLogger logger (ctx w))) in
  runSubcommand
    (wrapSubcommand h tracer (mkCommand name None None (Some (runTaskAction h)) subs))
    c w
  = (mkWorld (<["context" := VContext x]> (Metadata w)) (Some sp) x
       (events w ++ [EvStartSpan tracer name;
                     EvLogFields sp "command" (Join (osArgs h) " ");
                     EvResolveApp (String_ c "app-addr");
                     EvRun app x (mkTask ty subject)]),
     Ret (Run h app x (mkTask ty subject))).
Proof.
  intros Hargs Hlog Happ sp x. subst sp x.
  rewrite runSubcommand_wrapped. unfold deferAfter, callHook, guarded, runAction.
  cbn [Before After Action Name ret].
  rewrite tracingHook_spec, Hlog. cbv beta iota zeta.
  unfold runTaskAction, NArg. rewrite Hargs, decide_False by (cbn; lia).
  change (Get [ty; subject] 0) with ty.
  change (Get [ty; subject] 1) with subject.
  unfold bind, emit, ret, CommandContext. cbn [Metadata span ctx events].
  rewrite Happ. cbn [Metadata span ctx events]. rewrite lookup_insert_eq.
  cbn [Metadata span ctx events]. rewrite <- !app_assoc.
  match goal with |- context [Run h app ?y ?t] => destruct (Run h app y t) end;
    reflexivity.
Qed.

Lemma wrapped_runTaskAction_witness :
  (runSubcommand
     (wrapSubcommand (sampleHost "") NoopTracer
        (mkCommand "run" None None (Some (runTaskAction (sampleHost ""))) []))
     sampleContext sampleWorld).2 = Ret None.
Proof.
  rewrite (wrapped_runTaskAction (sampleHost "") NoopTracer "run" [] sampleContext
             sampleWorld "transfer" "image"
             (mkLogger (ConsoleWriter Stderr) 0%Z true) (ConsoleWriter Stderr)
             (mkLabApp "http://localhost:7003") eq_refl eq_refl eq_refl).
  reflexivity.
Defined.

(** ** More on the action handlers *)

(** X11. The update handler stops at the first step that fails. An
    agent that does not resolve ends it before any remote call; a
    missing execution context makes it panic after resolving the agent
    and before calling Update; an app that does not resolve after a
    successful Update ends it before Healthcheck. *)
Theorem updateAgentAction_early_exits (h : Host) (c : Context) (w : World) :
  (forall err,
      ResolveAgent h c (String_ c "agent-addr") = inr err ->
      updateAgentAction h c w =
      (addEvents w [EvResolveAgent (String_ c "agent-addr")], Ret (Some err)))
  /\ (forall agent,
        ResolveAgent h c (String_ c "agent-addr") = inl agent ->
        Metadata w !! "context" = None ->
        updateAgentAction h c w =
        (addEvents w [EvResolveAgent (String_ c "agent-addr")],
         Panic (PanicNilInterface "context")))
  /\ (forall agent x err,
        ResolveAgent h c (String_ c "agent-addr") = inl agent ->
        Metadata w !! "context" = Some (VContext x) ->
        Update h agent x (updateURL c) = None ->
        ResolveApp h c (String_ c "app-addr") = inr err ->
        updateAgentAction h c w =
        (addEvents w [EvResolveAgent (String_ c "agent-addr");
                      EvUpdate agent x (updateURL c);
                      EvResolveApp (String_ c "app-addr")],
         Ret (Some err))).
Proof.
  unfold updateAgentAction, bind, emit, ret, CommandContext, addEvents.
  split; [|split].
  - intros err ->. reflexivity.
  - intros agent -> Hctx. cbn [Metadata span ctx events]. rewrite Hctx. reflexivity.
  - intros agent x err -> Hctx Hup Happ. cbn [Metadata span ctx events].
    rewrite Hctx, Hup. cbn [Metadata span ctx events]. rewrite Happ.
    rewrite <- !app_assoc. reflexivity.
Qed.

Lemma updateAgentAction_early_exits_witness :
  updateAgentAction (sampleHost "") sampleContext sampleWorld =
  (addEvents sampleWorld [EvResolveAgent "http://localhost:7002"],
   Panic (PanicNilInterface "context")).
Proof.
  exact (proj1 (proj2 (updateAgentAction_early_exits (sampleHost "") sampleContext
                         sampleWorld))
           (mkAgent "http://localhost:7002") eq_refl eq_refl).
Defined.

(** ** The client hook *)

(** X12. The client hook consults the logger configuration only at the
    "debug" log level. At any other level it builds the client without
    options, so an unknown log writer does not make it fail. At the
    "debug" level a logger that cannot be built makes it return that
    error without building or publishing a client, and a logger that
    can be built is passed to the client as its only option. In all
    cases a client construction error is returned as it is and nothing
    is published. *)
Theorem clientHook_logger_only_at_debug
    (h : Host) (NewClient : list ClientOption -> nat + error)
    (c : Context) (w : World) :
  let build opts :=
    match NewClient opts with
    | inr err => (w, Ret (Some err))
    | inl client =>
        (withMetadata w (<["client" := VClient client]> (Metadata w)), Ret None)
    end in
  (GlobalString c "log-level" <> "debug" ->
   clientHook h NewClient c w = build [])
  /\ (forall err,
        GlobalString c "log-level" = "debug" ->
        newLogger h c = inr err ->
        clientHook h NewClient c w = (w, Ret (Some err)))
  /\ (forall logger writer,
        GlobalString c "log-level" = "debug" ->
        newLogger h c = inl (logger, writer) ->
        clientHook h NewClient c w = build [WithLogger logger]).
Proof.
  intros build. subst build. unfold clientHook, bind, setMetadata, ret, withMetadata.
  split; [|split].
  - intros Hlevel. rewrite decide_False by exact Hlevel.
    destruct (NewClient []); reflexivity.
  - intros err Hlevel Hlog. rewrite decide_True by exact Hlevel.
    rewrite Hlog. reflexivity.
  - intros logger writer Hlevel Hlog. rewrite decide_True by exact Hlevel.
    rewrite Hlog. cbn [app]. destruct (NewClient [WithLogger logger]); reflexivity.
Qed.

Lemma clientHook_logger_only_at_debug_witness :
  clientHook (sampleHost "") sampleNewClient
    (mkContext [] ∅ {[ "log-writer" := "syslog"; "log-level" := "info" ]})
    sampleWorld
  = (withMetadata sampleWorld {[ "client" := VClient 0 ]}, Ret None)
  /\ clientHook (sampleHost "") sampleNewClient
       (mkContext [] ∅ {[ "log-writer" := "syslog"; "log-level" := "debug" ]})
       sampleWorld
     = (sampleWorld,
        Ret (Some (Wrapf ErrInvalidArgument "unknown log writer %q" "syslog"))).
Proof.
  split.
  - apply (clientHook_logger_only_at_debug (sampleHost "") sampleNewClient).
    intros Heq; vm_compute in Heq; discriminate Heq.
  - apply (proj1 (proj2 (clientHook_logger_only_at_debug (sampleHost "")
                           sampleNewClient _ sampleWorld)));
      reflexivity.
Defined.

(** X13. Attaching the printer and then the client appends their hooks
    to the top-level Before chain in that order: the resulting hook runs
    the previous Before hook, then the printer hook, then the client
    hook, stopping at the first failure; the commands and the After hook
    of the application are not touched. *)
Theorem AttachAppPrinter_then_client
    (h : Host) (NewClient : list ClientOption -> nat + error)
    (app : App) (c : Context) (w : World) :
  let app' := AttachAppClient h NewClient (AttachAppPrinter app) in
  callHook (AppBefore app') c w =
  runInOrder (omap id [AppBefore app; Some printerHook;
                       Some (clientHook h NewClient)]) c w
  /\ Commands app' = Commands app
  /\ AppAfter app' = AppAfter app.
Proof.
  intros app'. subst app'. split; [|split; reflexivity].
  cbn [AttachAppClient AttachAppPrinter AppBefore].
  unfold joinBefore at 1. rewrite callHook_Some.
  rewrite <- joinBefore_loop_in_order.
  rewrite (joinBefore_nested [AppBefore app; Some printerHook]
             [Some (clientHook h NewClient)]).
  reflexivity.
Qed.

(** ** The peer-info handler *)


(** ** ExtractNameFromFilename *)

Lemma list_ascii_of_string_app (a b : string) :
  String.list_ascii_of_string (a +:+ b) =
  String.list_ascii_of_string a ++ String.list_ascii_of_string b.
Proof.
  induction a as [|ch a IH]; [reflexivity|]. cbn. rewrite <- IH. reflexivity.
Qed.

Lemma isPathSeparator_false (ch : Ascii.ascii) :
  ch <> slash -> isPathSeparator ch = false.
Proof.
  intros Hne. unfold isPathSeparator.
  destruct (Ascii.eqb_spec ch slash); [contradiction|reflexivity].
Qed.

Lemma eqb_dot_false (ch : Ascii.ascii) : ch <> dot -> Ascii.eqb ch dot = false.
Proof.
  intros Hne. destruct (Ascii.eqb_spec ch dot); [contradiction|reflexivity].
Qed.

(** The walk of [filepath.Ext] over bytes that are neither a separator
    nor a dot, ending on a dot. *)
Lemma extLoop_dot (r rest acc : list Ascii.ascii) :
  slash ∉ r -> dot ∉ r ->
  extLoop (r ++ dot :: rest) acc = dot :: rev r ++ acc.
Proof.
  revert acc. induction r as [|ch r IH]; intros acc Hs Hd; [reflexivity|].
  apply not_elem_of_cons in Hs as [Hs1 Hs2].
  apply not_elem_of_cons in Hd as [Hd1 Hd2].
  cbn [app extLoop]. rewrite isPathSeparator_false, eqb_dot_false by congruence.
  rewrite IH by assumption. cbn [rev]. rewrite <- app_assoc. reflexivity.
Qed.

(** The same walk ending on a separator or on the start of the path. *)
Lemma extLoop_none (r rest acc : list Ascii.ascii) :
  dot ∉ r -> rest = [] \/ (exists rest', rest = slash :: rest') ->
  extLoop (r ++ rest) acc = [].
Proof.
  revert acc. induction r as [|ch r IH]; intros acc Hd Hrest.
  - destruct Hrest as [->|[rest' ->]]; reflexivity.
  - apply not_elem_of_cons in Hd as [Hd1 Hd2]. cbn [app extLoop].
    destruct (isPathSeparator ch); [reflexivity|].
    rewrite eqb_dot_false by congruence. apply IH; assumption.
Qed.

Lemma lastElement_segment (r rest acc : list Ascii.ascii) :
  slash ∉ r -> rest = [] \/ (exists rest', rest = slash :: rest') ->
  lastElement (r ++ rest) acc = rev r ++ acc.
Proof.
  revert acc. induction r as [|ch r IH]; intros acc Hs Hrest.
  - destruct Hrest as [->|[rest' ->]]; reflexivity.
  - apply not_elem_of_cons in Hs as [Hs1 Hs2]. cbn [app lastElement].
    rewrite isPathSeparator_false by congruence.
    rewrite IH by assumption. cbn [rev]. rewrite <- app_assoc. reflexivity.
Qed.

Lemma stripSeparators_segment (r rest : list Ascii.ascii) :
  slash ∉ r -> r <> [] -> stripSeparators (r ++ rest) = r ++ rest.
Proof.
  destruct r as [|ch r]; [congruence|]. intros Hs _.
  apply not_elem_of_cons in Hs as [Hs1 _]. cbn [app stripSeparators].
  rewrite isPathSeparator_false by congruence. reflexivity.
Qed.

Lemma TrimSuffix_app (s suffix : list Ascii.ascii) :
  TrimSuffix (s ++ suffix) suffix = s.
Proof.
  unfold TrimSuffix, HasSuffix. rewrite length_app.
  replace (length s + length suffix - length suffix)%nat with (length s) by lia.
  rewrite drop_app_length, take_app_length.
  rewrite bool_decide_eq_true_2 by reflexivity.
  destruct (Nat.leb_spec (length suffix) (length s + length suffix)); [|lia].
  reflexivity.
Qed.

Lemma TrimSuffix_nil (s : list Ascii.ascii) : TrimSuffix s [] = s.
Proof.
  rewrite <- (app_nil_r s) at 1. apply TrimSuffix_app.
Qed.

(** The base name of a path that ends with a non-empty element [name],
    possibly after a directory part. *)
Lemma Base_last_element (pre name : list Ascii.ascii) :
  slash ∉ name -> name <> [] ->
  pre = [] \/ (exists pre', pre = pre' ++ [slash]) ->
  Base (pre ++ name) = name.
Proof.
  intros Hs Hne Hpre. unfold Base.
  destruct (pre ++ name) as [|ch path] eqn:Hpath.
  { apply app_eq_nil in Hpath as [_ ->]. congruence. }
  rewrite <- Hpath, rev_app_distr.
  assert (Hrs : slash ∉ rev name).
  { intros Hin. apply Hs. apply list_elem_of_In, in_rev, list_elem_of_In, Hin. }
  assert (Hrne : rev name <> []).
  { intros Hnil. apply Hne. rewrite <- (rev_involutive name), Hnil. reflexivity. }
  rewrite stripSeparators_segment by assumption.
  rewrite lastElement_segment; [| assumption |].
  - rewrite rev_involutive, app_nil_r.
    destruct name; [congruence|reflexivity].
  - destruct Hpre as [->|[pre' ->]]; [left; reflexivity|].
    right. rewrite rev_app_distr. cbn. eauto.
Qed.

Lemma stripSeparators_slashes (seps r : list Ascii.ascii) :
  Forall (fun ch => ch = slash) seps ->
  stripSeparators (seps ++ r) = stripSeparators r.
Proof.
  induction 1 as [|ch seps -> _ IH]; [reflexivity|]. cbn. exact IH.
Qed.

Lemma not_elem_of_rev (ch : Ascii.ascii) (l : list Ascii.ascii) :
  ch ∉ l -> ch ∉ rev l.
Proof.
  intros Hl Hin. apply Hl. apply list_elem_of_In, in_rev, list_elem_of_In, Hin.
Qed.

Lemma Forall_rev_slash (seps : list Ascii.ascii) :
  Forall (fun ch => ch = slash) seps -> Forall (fun ch => ch = slash) (rev seps).
Proof.
  intros Hs. apply List.Forall_rev. exact Hs.
Qed.

(** The base name of a path whose last element is [name], followed by
    any number of trailing separators. *)
Lemma Base_trailing_separators (pre name seps : list Ascii.ascii) :
  slash ∉ name -> name <> [] ->
  pre = [] \/ (exists pre', pre = pre' ++ [slash]) ->
  Forall (fun ch => ch = slash) seps ->
  Base (pre ++ name ++ seps) = name.
Proof.
  intros Hs Hne Hpre Hseps. unfold Base.
  destruct (pre ++ name ++ seps) as [|ch path] eqn:Hpath.
  { apply app_eq_nil in Hpath as [_ Hpath].
    apply app_eq_nil in Hpath as [-> _]. congruence. }
  rewrite <- Hpath, !rev_app_distr, <- app_assoc.
  rewrite stripSeparators_slashes by (apply Forall_rev_slash; exact Hseps).
  assert (Hrne : rev name <> []).
  { intros Hnil. apply Hne. rewrite <- (rev_involutive name), Hnil. reflexivity. }
  rewrite stripSeparators_segment by (auto using not_elem_of_rev).
  rewrite lastElement_segment; [| auto using not_elem_of_rev |].
  - rewrite rev_involutive, app_nil_r.
    destruct name; [congruence|reflexivity].
  - destruct Hpre as [->|[pre' ->]]; [left; reflexivity|].
    right. rewrite rev_app_distr. cbn. eauto.
Qed.

Lemma dot_not_slash : dot <> slash.
Proof. discriminate. Qed.

Lemma extract_stem (pre stem ext : list Ascii.ascii) :
  slash ∉ stem -> slash ∉ ext -> dot ∉ ext ->
  pre = [] \/ (exists pre', pre = pre' ++ [slash]) ->
  TrimSuffix (Base (pre ++ stem ++ dot :: ext)) (Ext (pre ++ stem ++ dot :: ext))
  = stem.
Proof.
  intros Hstem Hext Hdot Hpre.
  assert (HExt : Ext (pre ++ stem ++ dot :: ext) = dot :: ext).
  { unfold Ext. rewrite !rev_app_distr. cbn [rev]. rewrite <- !app_assoc.
    cbn [app]. rewrite extLoop_dot by (auto using not_elem_of_rev).
    rewrite rev_involutive, app_nil_r. reflexivity. }
  assert (HBase : Base (pre ++ stem ++ dot :: ext) = stem ++ dot :: ext).
  { rewrite <- (app_nil_r (stem ++ dot :: ext)) at 1.
    apply Base_trailing_separators; [| |exact Hpre|constructor].
    - rewrite not_elem_of_app, not_elem_of_cons.
      split; [exact Hstem|]. split; [|exact Hext].
      intros Heq. apply dot_not_slash. symmetry. exact Heq.
    - destruct stem; discriminate. }
  rewrite HExt, HBase. apply TrimSuffix_app.
Qed.

(** X15. For a file name made of an element [stem.ext] where neither
    part contains a separator and [ext] contains no dot, alone or after
    a directory part, the extracted name is [stem]: the directory and
    the last extension are removed. *)
Theorem ExtractNameFromFilename_stem (dir stem ext : string) :
  slash ∉ String.list_ascii_of_string stem ->
  slash ∉ String.list_ascii_of_string ext ->
  dot ∉ String.list_ascii_of_string ext ->
  ExtractNameFromFilename (dir +:+ "/" +:+ stem +:+ "." +:+ ext) = stem
  /\ ExtractNameFromFilename (stem +:+ "." +:+ ext) = stem.
Proof.
  intros Hstem Hext Hdot. unfold ExtractNameFromFilename.
  rewrite !list_ascii_of_string_app.
  change (String.list_ascii_of_string "/") with [slash].
  change (String.list_ascii_of_string ".") with [dot].
  split.
  - rewrite (app_assoc (String.list_ascii_of_string dir) [slash]).
    cbn [app]. rewrite extract_stem by eauto.
    apply String.string_of_list_ascii_of_string.
  - cbn [app].
    rewrite <- (app_nil_l (String.list_ascii_of_string stem ++ _)).
    rewrite extract_stem by auto.
    apply String.string_of_list_ascii_of_string.
Qed.

Lemma ExtractNameFromFilename_stem_witness :
  ExtractNameFromFilename ("scenarios/v1.2" +:+ "/" +:+ "neighbors.tar" +:+ "." +:+ "json")
  = "neighbors.tar".
Proof.
  apply (ExtractNameFromFilename_stem "scenarios/v1.2" "neighbors.tar" "json");
    intros Hin; vm_compute in Hin; repeat (apply elem_of_cons in Hin as [Hin|Hin];
      [discriminate Hin|]); apply elem_of_nil in Hin; exact Hin.
Defined.

Lemma Ext_no_dot_in_last_element (pre name : list Ascii.ascii) :
  dot ∉ name ->
  pre = [] \/ (exists pre', pre = pre' ++ [slash]) ->
  Ext (pre ++ name) = [].
Proof.
  intros Hdot Hpre. unfold Ext. rewrite rev_app_distr.
  apply extLoop_none; [auto using not_elem_of_rev|].
  destruct Hpre as [->|[pre' ->]]; [left; reflexivity|].
  right. rewrite rev_app_distr. cbn. eauto.
Qed.

(** X16. A last element without a dot has no extension to remove: for
    a non-empty [name] with neither a separator nor a dot, alone or
    after a directory part (which may itself contain dots), the
    extracted name is [name]. *)
Theorem ExtractNameFromFilename_no_extension (dir name : string) :
  name <> "" ->
  slash ∉ String.list_ascii_of_string name ->
  dot ∉ String.list_ascii_of_string name ->
  ExtractNameFromFilename (dir +:+ "/" +:+ name) = name
  /\ ExtractNameFromFilename name = name.
Proof.
  intros Hne Hs Hd. unfold ExtractNameFromFilename.
  rewrite !list_ascii_of_string_app.
  change (String.list_ascii_of_string "/") with [slash].
  assert (Hnil : String.list_ascii_of_string name <> []).
  { destruct name; [congruence|discriminate]. }
  split.
  - rewrite (app_assoc (String.list_ascii_of_string dir) [slash]).
    rewrite Ext_no_dot_in_last_element by eauto.
    rewrite TrimSuffix_nil.
    rewrite <- (app_nil_r (String.list_ascii_of_string name)) at 1.
    rewrite Base_trailing_separators by eauto.
    apply String.string_of_list_ascii_of_string.
  - rewrite <- (app_nil_l (String.list_ascii_of_string name)) at 1 2.
    rewrite Ext_no_dot_in_last_element by auto.
    rewrite TrimSuffix_nil.
    rewrite <- (app_nil_r (String.list_ascii_of_string name)) at 1.
    rewrite Base_trailing_separators by auto.
    apply String.string_of_list_ascii_of_string.
Qed.

Lemma ExtractNameFromFilename_no_extension_witness :
  ExtractNameFromFilename ("cluster.d/eu" +:+ "/" +:+ "nodes") = "nodes".
Proof.
  apply (ExtractNameFromFilename_no_extension "cluster.d/eu" "nodes");
    [discriminate| |];
    intros Hin; vm_compute in Hin; repeat (apply elem_of_cons in Hin as [Hin|Hin];
      [discriminate Hin|]); apply elem_of_nil in Hin; exact Hin.
Defined.

(** X17. A trailing separator hides the extension: the extension is
    looked for in the whole file name, where the walk stops at the
    trailing separator, while the base name drops that separator. So
    for a non-empty [name] without separator, followed by one or more
    separators, the extracted name is [name] with its extension kept. *)
Theorem ExtractNameFromFilename_trailing_separator (dir name seps : string) :
  name <> "" -> seps <> "" ->
  slash ∉ String.list_ascii_of_string name ->
  Forall (fun ch => ch = slash) (String.list_ascii_of_string seps) ->
  ExtractNameFromFilename (dir +:+ "/" +:+ name +:+ seps) = name
  /\ ExtractNameFromFilename (name +:+ seps) = name.
Proof.
  intros Hne Hsne Hs Hseps. unfold ExtractNameFromFilename.
  rewrite !list_ascii_of_string_app.
  change (String.list_ascii_of_string "/") with [slash].
  assert (Hnil : String.list_ascii_of_string name <> []).
  { destruct name; [congruence|discriminate]. }
  assert (HExt : forall pre,
             Ext (pre ++ String.list_ascii_of_string name
                      ++ String.list_ascii_of_string seps) = []).
  { intros pre. unfold Ext. rewrite !rev_app_distr.
    destruct seps as [|ch seps]; [congruence|].
    cbn [String.list_ascii_of_string] in *.
    apply Forall_cons in Hseps as [-> Hseps].
    cbn [rev]. rewrite <- !app_assoc.
    destruct (rev (String.list_ascii_of_string seps)) as [|ch' r] eqn:Hr.
    - reflexivity.
    - assert (Hch : ch' = slash).
      { apply Forall_rev_slash in Hseps. rewrite Hr in Hseps.
        apply Forall_cons in Hseps as [-> _]. reflexivity. }
      subst ch'. reflexivity. }
  split.
  - rewrite (app_assoc (String.list_ascii_of_string dir) [slash]).
    rewrite HExt, TrimSuffix_nil, Base_trailing_separators by eauto.
    apply String.string_of_list_ascii_of_string.
  - rewrite <- (app_nil_l (String.list_ascii_of_string name ++ _)).
    rewrite HExt, TrimSuffix_nil, Base_trailing_separators by auto.
    apply String.string_of_list_ascii_of_string.
Qed.

Lemma ExtractNameFromFilename_trailing_separator_witness :
  ExtractNameFromFilename ("a.json" +:+ "/") = "a.json".
Proof.
  apply (ExtractNameFromFilename_trailing_separator "" "a.json" "/");
    [discriminate|discriminate| |repeat constructor].
  intros Hin; vm_compute in Hin; repeat (apply elem_of_cons in Hin as [Hin|Hin];
    [discriminate Hin|]); apply elem_of_nil in Hin; exact Hin.
Defined.

(** X18. Degenerate file names: the empty name gives ".", and a name
    made only of separators gives the single separator. *)
Theorem ExtractNameFromFilename_only_separators (filename : string) :
  Forall (fun ch => ch = slash) (String.list_ascii_of_string filename) ->
  ExtractNameFromFilename filename = if decide (filename = "") then "." else "/".
Proof.
  intros Hseps. unfold ExtractNameFromFilename.
  destruct filename as [|ch rest]; [reflexivity|].
  rewrite decide_False by discriminate.
  set (path := String.list_ascii_of_string (String ch rest)) in *.
  assert (Hstrip : stripSeparators (rev path) = []).
  { rewrite <- (app_nil_r (rev path)).
    rewrite stripSeparators_slashes by (apply Forall_rev_slash; exact Hseps).
    reflexivity. }
  assert (HExt : Ext path = []).
  { unfold Ext. destruct (rev path) as [|ch' r] eqn:Hr; [reflexivity|].
    apply Forall_rev_slash in Hseps. rewrite Hr in Hseps.
    apply Forall_cons in Hseps as [-> _]. reflexivity. }
  assert (HBase : Base path = [slash]).
  { unfold Base. subst path. cbn [String.list_ascii_of_string] in *.
    rewrite Hstrip. reflexivity. }
  rewrite HExt, HBase. reflexivity.
Qed.

Lemma ExtractNameFromFilename_only_separators_witness :
  ExtractNameFromFilename "///" = "/" /\ ExtractNameFromFilename "" = ".".
Proof.
  split.
  - apply (ExtractNameFromFilename_only_separators "///"). repeat constructor.
  - apply (ExtractNameFromFilename_only_separators ""). constructor.
Defined.

(** ** The printer hook in front of the commands *)

(** X19. With the printer attached to an application that had no
    Before hook, an output value other than "unix" and "json" stops the
    invocation before any command is dispatched: whatever the commands
    are, the outcome is the printer's error in the unchanged world,
    followed only by the application's After hook. *)
Theorem invalid_output_dispatches_nothing
    (cmds : list Command) (after : option Func) (i j : nat)
    (ca cc cs : Context) (w : World) :
  String_ ca "output" <> "unix" ->
  String_ ca "output" <> "json" ->
  runApp (AttachAppPrinter (mkApp cmds None after)) i j ca cc cs w =
  deferAfter after ca
    (fun _ => (w, Ret (Some (FmtErrorf "output %q is not valid"
                                       (String_ ca "output"))))) w.
Proof.
  intros Hu Hj. unfold runApp, appBody, deferAfter.
  cbn [AttachAppPrinter AppBefore AppAfter Commands].
  rewrite guarded_joinBefore. cbn [joinBefore_loop].
  unfold printerHook, OutputUnix, OutputJSON.
  rewrite decide_False by exact Hu. rewrite decide_False by exact Hj.
  reflexivity.
Qed.

Lemma invalid_output_dispatches_nothing_witness :
  runApp (AttachAppPrinter (mkApp (Commands (sampleTree None)) None None)) 0 0
    unhealthyContext sampleContext sampleContext sampleWorld
  = (sampleWorld, Ret (Some (FmtErrorf "output %q is not valid" ""))).
Proof.
  apply (invalid_output_dispatches_nothing (Commands (sampleTree None)) None 0 0
           unhealthyContext sampleContext sampleContext sampleWorld);
    intros Heq; vm_compute in Heq; discriminate Heq.
Defined.
